(** * Global business-day calculator: calendar rules and date arithmetic

    A shallow embedding of [app.py] (calendar resolution, calendar merge,
    business-day classification, counting and projection) together with
    the properties its specification states about it.

    Python values are modelled as follows.
    - A naive [datetime] at midnight is its proleptic Gregorian ordinal
      ([datetime.toordinal()]), an integer between [MINORD] (0001-01-01)
      and [MAXORD] (9999-12-31).  Adding a [timedelta] raises
      [OverflowError] when the result leaves that range.
    - A Python [set] is a [gset]; [sorted(list(s))] is the merge sort of
      its elements.
    - A raised exception is the [Raise] branch of [result].
    - A [while] loop is a recursive function on a fuel counter; [None]
      means that the fuel ran out before the loop finished. *)

From Stdlib Require Import ZArith List Ascii String Bool Lia OrdersEx.
From stdpp Require Import base option list gmap sets strings sorting numbers.

Local Open Scope Z_scope.

(** ** Exceptions *)

(** The request field a [ValueError] message talks about. *)
Inductive field := StartDate | EndDate | BusinessDays.

(** One constructor per kind of [ValueError] raised by [app.py]:
    - [UnknownCalendar]: "Calendar '...' not found in holidays library or custom rules"
    - [InvalidRange]: "end_date must be after start_date"
    - [InvalidCount]: "business_days must be a non-negative integer"
    - [InvalidDateFormat f]: "Invalid start_date format: ..." / "Invalid end_date format: ..."
    - [InvalidOperation]: "Invalid operation: ..."
    - [MissingField f]: "end_date is required ..." / "business_days is required ..." *)
Inductive error :=
  | UnknownCalendar
  | InvalidRange
  | InvalidCount
  | InvalidDateFormat (f : field)
  | InvalidOperation
  | MissingField (f : field).

Inductive exn :=
  | ValueError (e : error)
  | OverflowError.

Inductive result (A : Type) :=
  | Return (a : A)
  | Raise (e : exn).
Arguments Return {A} a.
Arguments Raise {A} e.

(** ** Dates *)

Module Datetime.

(** [date.min.toordinal()] and [date.max.toordinal()]. *)
Definition MINORD : Z := 1.
Definition MAXORD : Z := 3652059.

Definition valid (d : Z) : Prop := MINORD <= d <= MAXORD.

(** [d + timedelta(days=k)]. *)
Definition add_days (d k : Z) : result Z :=
  let r := d + k in
  if (MINORD <=? r) && (r <=? MAXORD) then Return r else Raise OverflowError.

(** [d.weekday()]: Monday is 0, Sunday is 6. *)
Definition weekday (d : Z) : Z := (d + 6) mod 7.

Definition is_leap (y : Z) : bool :=
  (y mod 4 =? 0) && (negb (y mod 100 =? 0) || (y mod 400 =? 0)).

Definition days_before_year (y : Z) : Z :=
  let y' := y - 1 in
  y' * 365 + y' / 4 - y' / 100 + y' / 400.

Definition days_in_month (y m : Z) : Z :=
  if m =? 2 then (if is_leap y then 29 else 28)
  else if (m =? 4) || (m =? 6) || (m =? 9) || (m =? 11) then 30
  else 31.

Definition days_before_month (y m : Z) : Z :=
  nth (Z.to_nat m) [0; 0; 31; 59; 90; 120; 151; 181; 212; 243; 273; 304; 334] 0
  + (if (2 <? m) && is_leap y then 1 else 0).

(** [date(y, m, d).toordinal()]. *)
Definition ymd2ord (y m d : Z) : Z :=
  days_before_year y + days_before_month y m + d.

(** [date(y, m, d)], which raises [ValueError] on an impossible date. *)
Definition of_ymd (y m d : Z) : option Z :=
  if (1 <=? y) && (y <=? 9999) && (1 <=? m) && (m <=? 12)
     && (1 <=? d) && (d <=? days_in_month y m)
  then Some (ymd2ord y m d) else None.

(** [date.fromordinal(n)] as a year, month, day triple. *)
Definition ord2ymd (n : Z) : Z * Z * Z :=
  let n := n - 1 in
  let n400 := n / 146097 in
  let n := n mod 146097 in
  let n100 := n / 36524 in
  let n := n mod 36524 in
  let n4 := n / 1461 in
  let n := n mod 1461 in
  let n1 := n / 365 in
  let n := n mod 365 in
  let year := n400 * 400 + 1 + n100 * 100 + n4 * 4 + n1 in
  if (n1 =? 4) || (n100 =? 4) then (year - 1, 12, 31)
  else
    let leapyear := (n1 =? 3) && (negb (n4 =? 24) || (n100 =? 3)) in
    let month := Z.shiftr (n + 50) 5 in
    let preceding :=
      nth (Z.to_nat month) [0; 0; 31; 59; 90; 120; 151; 181; 212; 243; 273; 304; 334] 0
      + (if (2 <? month) && leapyear then 1 else 0) in
    if n <? preceding then
      let month' := month - 1 in
      let dim :=
        nth (Z.to_nat month') [0; 31; 28; 31; 30; 31; 30; 31; 31; 30; 31; 30; 31] 0
        + (if (month' =? 2) && leapyear then 1 else 0) in
      (year, month', n - (preceding - dim) + 1)
    else (year, month, n - preceding + 1).

End Datetime.
Import Datetime.

(** The two [datetime] conversions the program uses with the format
    ["%Y-%m-%d"]: [strptime s] is [None] when [datetime.strptime] raises
    [ValueError]; [strftime d] is [d.strftime("%Y-%m-%d")]. *)
Class DateCodec := {
  strptime : string -> option Z;
  strftime : Z -> string
}.

(** ** Business-day engine *)

(** [is_business_day(date, weekend_days_set, holidays_set, makeup_days_set)] *)
Definition is_business_day (date : Z)
    (weekend_days_set holidays_set makeup_days_set : gset Z) : bool :=
  if bool_decide (date ∈ makeup_days_set) then true
  else
    let is_weekend := bool_decide (weekday date ∈ weekend_days_set) in
    let is_holiday := bool_decide (date ∈ holidays_set) in
    negb is_weekend && negb is_holiday.

(** The [while current_date <= end_date] loop of [calculate_days_between]. *)
Fixpoint days_between_loop (fuel : nat) (current_date end_date business_days : Z)
    (weekend_days_set holidays_set makeup_days_set : gset Z) : option (result Z) :=
  if current_date <=? end_date then
    match fuel with
    | O => None
    | S fuel' =>
        let business_days' :=
          if is_business_day current_date weekend_days_set holidays_set makeup_days_set
          then business_days + 1 else business_days in
        match add_days current_date 1 with
        | Raise e => Some (Raise e)
        | Return current_date' =>
            days_between_loop fuel' current_date' end_date business_days'
              weekend_days_set holidays_set makeup_days_set
        end
    end
  else Some (Return business_days).

(** [calculate_days_between(start_date, end_date, ...)] *)
Definition calculate_days_between (fuel : nat) (start_date end_date : Z)
    (weekend_days_set holidays_set makeup_days_set : gset Z) : option (result Z) :=
  match add_days start_date 1 with
  | Raise e => Some (Raise e)
  | Return current_date =>
      days_between_loop fuel current_date end_date 0
        weekend_days_set holidays_set makeup_days_set
  end.

(** The [while days_counted < business_days] loop of
    [get_future_business_date]. *)
Fixpoint future_date_loop (fuel : nat) (current_date days_counted business_days : Z)
    (weekend_days_set holidays_set makeup_days_set : gset Z) : option (result Z) :=
  if days_counted <? business_days then
    match fuel with
    | O => None
    | S fuel' =>
        match add_days current_date 1 with
        | Raise e => Some (Raise e)
        | Return current_date' =>
            let days_counted' :=
              if is_business_day current_date' weekend_days_set holidays_set makeup_days_set
              then days_counted + 1 else days_counted in
            future_date_loop fuel' current_date' days_counted' business_days
              weekend_days_set holidays_set makeup_days_set
        end
    end
  else Some (Return current_date).

(** [get_future_business_date(start_date, business_days, ...)] *)
Definition get_future_business_date (fuel : nat) (start_date business_days : Z)
    (weekend_days_set holidays_set makeup_days_set : gset Z) : option (result Z) :=
  future_date_loop fuel start_date 0 business_days
    weekend_days_set holidays_set makeup_days_set.

(** Iterations are bounded by the days left in the calendar. *)
Definition days_left (d : Z) : nat := Z.to_nat (MAXORD - d).

(** ** Sorted presentation of sets *)

(** Python compares [str] values code point by code point; on UTF-8
    encoded text that is the byte-wise lexicographic order. *)
Definition str_le (a b : string) : Prop := String_as_OT.compare a b <> Gt.
Definition str_lt (a b : string) : Prop := String_as_OT.compare a b = Lt.

#[global] Instance str_le_dec (a b : string) : Decision (str_le a b).
Proof. unfold str_le. destruct (String_as_OT.compare a b); [left|left|right]; congruence. Defined.

(** [sorted(list(s))] for a set of [int] and for a set of [str]. *)
Definition sorted_ints (s : gset Z) : list Z := merge_sort Z.le (elements s).
Definition sorted_strs (s : gset string) : list string := merge_sort str_le (elements s).

(** ** Calendar rules *)

(** The rules dict [{"weekend_days": [...], "holidays": [...],
    "makeup_days": [...]}]; a field is [None] when the key is absent. *)
Record calendar_rules := {
  weekend_days : option (list Z);
  holidays : option (list string);
  makeup_days : option (list string)
}.

(** [d.get(key, [])] *)
Definition get_list {A} (v : option (list A)) : list A := default [] v.

(** The data model's invariant on a rule set: the three fields are
    present and hold no duplicates. *)
Definition normalized (r : calendar_rules) : Prop :=
  (exists w, weekend_days r = Some w /\ NoDup w) /\
  (exists h, holidays r = Some h /\ NoDup h) /\
  (exists m, makeup_days r = Some m /\ NoDup m).

(** One iteration of the [for rules in calendar_rules_list] loop of
    [merge_calendar_rules] on the three accumulator sets. *)
Definition merge_step (acc : gset Z * gset string * gset string)
    (rules : calendar_rules) : gset Z * gset string * gset string :=
  let '(all_weekend_days, all_holidays, all_makeup_days) := acc in
  (all_weekend_days ∪ list_to_set (get_list (weekend_days rules)),
   all_holidays ∪ list_to_set (get_list (holidays rules)),
   all_makeup_days ∪ list_to_set (get_list (makeup_days rules))).

(** [merge_calendar_rules(calendar_rules_list)] *)
Definition merge_calendar_rules (calendar_rules_list : list calendar_rules)
    : calendar_rules :=
  match calendar_rules_list with
  | [] => {| weekend_days := Some []; holidays := Some []; makeup_days := Some [] |}
  | [rules] => rules
  | _ =>
      let '(all_weekend_days, all_holidays, all_makeup_days) :=
        foldl merge_step (∅, ∅, ∅) calendar_rules_list in
      {| weekend_days := Some (sorted_ints all_weekend_days);
         holidays := Some (sorted_strs all_holidays);
         makeup_days := Some (sorted_strs all_makeup_days) |}
  end.

(** ** Calendar resolution *)

(** The [holidays] library: [country_holidays country subdiv year] is the
    list of dates of [holidays.country_holidays(country, subdiv=subdiv,
    years=year)], or [None] when the call raises. *)
Class HolidayProvider := {
  country_holidays : string -> option string -> Z -> option (list Z)
}.

(** One entry of [custom_rules.json]; a field is [None] when its key is
    absent. *)
Record override_record := {
  display_name : option string;
  custom_weekend_days : option (list Z);
  custom_holidays : option (list string);
  custom_makeup_days : option (list string)
}.

(** [calendar_id.split('-', 1)] when ['-' in calendar_id]. *)
Fixpoint split_dash (s : string) : option (string * string) :=
  match s with
  | EmptyString => None
  | String c rest =>
      if Ascii.eqb c "-"%char then Some (EmptyString, rest)
      else match split_dash rest with
           | Some (country_code, subdiv) => Some (String c country_code, subdiv)
           | None => None
           end
  end.

(** The arguments of the library call for a calendar id. *)
Definition provider_key (calendar_id : string) : string * option string :=
  match split_dash calendar_id with
  | Some (country_code, subdiv) => (country_code, Some subdiv)
  | None => (calendar_id, None)
  end.

(** The [for year in years] loop inside the [try] block: the holidays
    gathered so far, and whether the loop ran to its end ([true]) or an
    exception left it ([false]). *)
Fixpoint load_holidays `{HolidayProvider} `{DateCodec}
    (key : string * option string) (years : list Z) (acc : gset string)
    : gset string * bool :=
  match years with
  | [] => (acc, true)
  | year :: years' =>
      match country_holidays key.1 key.2 year with
      | None => (acc, false)
      | Some dates =>
          load_holidays key years' (acc ∪ list_to_set (strftime <$> dates))
      end
  end.

(** Step 3 of [get_calendar_rules]: the override record applied to the
    weekend list and the two sets. *)
Definition apply_custom (custom : override_record)
    (rules : list Z * gset string * gset string)
    : list Z * gset string * gset string :=
  let '(weekend, hol, mk) := rules in
  let weekend' :=
    match custom_weekend_days custom with
    | Some w => w
    | None => weekend
    end in
  let hol' :=
    match custom_holidays custom with
    | Some l => if (0 <? length l)%nat then hol ∪ list_to_set l else hol
    | None => hol
    end in
  let mk' :=
    match custom_makeup_days custom with
    | Some l => mk ∪ list_to_set l
    | None => mk
    end in
  (weekend', hol', mk').

(** [get_calendar_rules(calendar_id, years)], with the module-level
    [custom_rules] table passed explicitly. *)
Definition get_calendar_rules `{HolidayProvider} `{DateCodec}
    (custom_rules : gmap string override_record)
    (calendar_id : string) (years : list Z) : result calendar_rules :=
  let '(hol, loaded) := load_holidays (provider_key calendar_id) years ∅ in
  if negb loaded && negb (bool_decide (is_Some (custom_rules !! calendar_id)))
  then Raise (ValueError UnknownCalendar)
  else
    let '(weekend, hol', mk) :=
      match custom_rules !! calendar_id with
      | Some custom => apply_custom custom ([5; 6], hol, ∅)
      | None => ([5; 6], hol, ∅)
      end in
    Return {| weekend_days := Some weekend;
              holidays := Some (sorted_strs hol');
              makeup_days := Some (sorted_strs mk) |}.

(** ** Request evaluation *)

(** The dict returned by [perform_calculation]. *)
Inductive calculation :=
  | DaysBetween (business_days : Z) (start_date end_date : string)
  | FutureDate (future_date start_date : string) (business_days : Z).

(** The two parsing loops of [perform_calculation]: each string that
    [strptime] accepts is added to the set, the others are skipped. *)
Fixpoint parse_dates `{DateCodec} (strs : list string) (acc : gset Z) : gset Z :=
  match strs with
  | [] => acc
  | s :: strs' =>
      match strptime s with
      | Some dt => parse_dates strs' (acc ∪ {[dt]})
      | None => parse_dates strs' acc
      end
  end.

(** [perform_calculation(operation, start_date, calendar_rules, end_date,
    business_days)].  [end_date] and [business_days] are [None] when the
    argument is [None]. *)
Definition perform_calculation `{DateCodec} (fuel : nat)
    (operation start_date : string) (rules : calendar_rules)
    (end_date : option string) (business_days : option Z)
    : option (result calculation) :=
  match strptime start_date with
  | None => Some (Raise (ValueError (InvalidDateFormat StartDate)))
  | Some start_dt =>
      let weekend_days_set : gset Z := list_to_set (get_list (weekend_days rules)) in
      let holidays_set := parse_dates (get_list (holidays rules)) ∅ in
      let makeup_days_set := parse_dates (get_list (makeup_days rules)) ∅ in
      if String.eqb operation "days_between" then
        match end_date with
        | None | Some EmptyString => Some (Raise (ValueError (MissingField EndDate)))
        | Some end_str =>
            match strptime end_str with
            | None => Some (Raise (ValueError (InvalidDateFormat EndDate)))
            | Some end_dt =>
                if end_dt <=? start_dt then Some (Raise (ValueError InvalidRange))
                else
                  match calculate_days_between fuel start_dt end_dt
                          weekend_days_set holidays_set makeup_days_set with
                  | None => None
                  | Some (Raise e) => Some (Raise e)
                  | Some (Return result_count) =>
                      Some (Return (DaysBetween result_count start_date end_str))
                  end
            end
        end
      else if String.eqb operation "get_future_date" then
        match business_days with
        | None => Some (Raise (ValueError (MissingField BusinessDays)))
        | Some n =>
            if n <? 0 then Some (Raise (ValueError InvalidCount))
            else
              match get_future_business_date fuel start_dt n
                      weekend_days_set holidays_set makeup_days_set with
              | None => None
              | Some (Raise e) => Some (Raise e)
              | Some (Return future_dt) =>
                  Some (Return (FutureDate (strftime future_dt) start_date n))
              end
        end
      else Some (Raise (ValueError InvalidOperation))
  end.

(** ** API endpoints *)

(** The error messages of the endpoints:
    - [BodyMustBeJson]: "Request body must be JSON"
    - [OperationRequired]: "operation is required"
    - [StartDateRequired]: "start_date is required"
    - [RulesOrIdsRequired]: "calendar_rules or calendar_ids is required"
    - [InvalidCalendarId e]: "Invalid calendar ID: " followed by the message of [e]
    - [Failed e]: the message of the [ValueError] [e] *)
Inductive api_error :=
  | BodyMustBeJson
  | OperationRequired
  | StartDateRequired
  | RulesOrIdsRequired
  | InvalidCalendarId (e : error)
  | Failed (e : error).

(** The JSON body of a response.  A result carries the rule set that
    was used, as [result['calendar_rules']]; [other_keys] tells whether
    that object holds keys other than the three of a rule set. *)
Inductive body :=
  | RulesBody (rules : calendar_rules)
  | ResultBody (c : calculation) (rules : calendar_rules) (other_keys : bool)
  | ErrorBody (e : api_error).

(** What a view function does: it returns a body with a status code, or
    lets an exception escape to the framework. *)
Inductive response :=
  | Respond (status : Z) (b : body)
  | Unhandled (e : exn).

(** A JSON object posted to [/api/calculate] in which the entries the
    handler reads have the types it expects: strings under [operation],
    [start_date] and [end_date], an integer under [business_days], a
    list of strings under [calendar_ids], and under [calendar_rules] an
    object whose [weekend_days] is a list of integers and whose
    [holidays] and [makeup_days] are lists of strings.  Bodies with
    entries of other types are not represented.

    A field is [None] when [data.get] returns [None] for its key (the
    key is absent, or holds [null]).  [req_other_keys] tells whether the
    object holds an entry besides the non-null entries of these six
    keys, and [req_rules_other_keys] whether the [calendar_rules] object
    holds a key other than its three. *)
Record request := {
  req_operation : option string;
  req_start_date : option string;
  req_calendar_rules : option calendar_rules;
  req_rules_other_keys : bool;
  req_calendar_ids : option (list string);
  req_end_date : option string;
  req_business_days : option Z;
  req_other_keys : bool
}.

(** Python truth of the values the handlers test with [not]. *)
Definition truthy_str (v : option string) : option string :=
  match v with
  | Some (String c s) => Some (String c s)
  | _ => None
  end.

(** A dict is false exactly when it holds no key at all. *)
Definition truthy_rules (v : option calendar_rules) (other_keys : bool)
    : option calendar_rules :=
  match v with
  | Some r =>
      match weekend_days r, holidays r, makeup_days r, other_keys with
      | None, None, None, false => None
      | _, _, _, _ => Some r
      end
  | None => None
  end.

Definition truthy_ids (v : option (list string)) : option (list string) :=
  match v with
  | Some (i :: ids) => Some (i :: ids)
  | _ => None
  end.

(** [not request.json]: the posted object holds no entry. *)
Definition empty_body (data : request) : bool :=
  match req_operation data, req_start_date data, req_calendar_rules data,
        req_calendar_ids data, req_end_date data, req_business_days data,
        req_other_keys data with
  | None, None, None, None, None, None, false => true
  | _, _, _, _, _, _, _ => false
  end.

(** [get_calendar(calendar_id)], the handler of
    [GET /api/calendar/<calendar_id>]; [current_year] is
    [datetime.now().year]. *)
Definition get_calendar `{HolidayProvider} `{DateCodec}
    (custom_rules : gmap string override_record) (current_year : Z)
    (calendar_id : string) : response :=
  let years := [current_year; current_year + 1] in
  match get_calendar_rules custom_rules calendar_id years with
  | Return calendar_data => Respond 200 (RulesBody calendar_data)
  | Raise (ValueError e) => Respond 404 (ErrorBody (Failed e))
  | Raise e => Unhandled e
  end.

(** The [for cal_id in calendar_ids] loop of [calculate]: the rule sets
    of the ids in order, or the first exception. *)
Fixpoint resolve_all `{HolidayProvider} `{DateCodec}
    (custom_rules : gmap string override_record) (years : list Z)
    (calendar_ids : list string) : result (list calendar_rules) :=
  match calendar_ids with
  | [] => Return []
  | cal_id :: calendar_ids' =>
      match get_calendar_rules custom_rules cal_id years with
      | Raise e => Raise e
      | Return rules =>
          match resolve_all custom_rules years calendar_ids' with
          | Raise e => Raise e
          | Return rules_list => Return (rules :: rules_list)
          end
      end
  end.

(** The last step of [calculate]: the calculation on the chosen rules
    and the response made of its outcome. *)
Definition respond_calculation `{DateCodec} (fuel : nat)
    (operation start_date : string) (rules : calendar_rules) (other_keys : bool)
    (end_date : option string) (business_days : option Z) : option response :=
  match perform_calculation fuel operation start_date rules end_date business_days with
  | None => None
  | Some (Return c) => Some (Respond 200 (ResultBody c rules other_keys))
  | Some (Raise (ValueError e)) => Some (Respond 400 (ErrorBody (Failed e)))
  | Some (Raise e) => Some (Unhandled e)
  end.

(** [calculate()], the handler of [POST /api/calculate], on the parsed
    body [data]. *)
Definition calculate `{HolidayProvider} `{DateCodec} (fuel : nat)
    (custom_rules : gmap string override_record) (current_year : Z)
    (data : request) : option response :=
  if empty_body data then Some (Respond 400 (ErrorBody BodyMustBeJson))
  else
    match truthy_str (req_operation data) with
    | None => Some (Respond 400 (ErrorBody OperationRequired))
    | Some operation =>
        match truthy_str (req_start_date data) with
        | None => Some (Respond 400 (ErrorBody StartDateRequired))
        | Some start_date =>
            match truthy_ids (req_calendar_ids data),
                  truthy_rules (req_calendar_rules data) (req_rules_other_keys data) with
            | None, None => Some (Respond 400 (ErrorBody RulesOrIdsRequired))
            | Some calendar_ids, _ =>
                let years := [current_year; current_year + 1] in
                match resolve_all custom_rules years calendar_ids with
                | Raise (ValueError e) =>
                    Some (Respond 400 (ErrorBody (InvalidCalendarId e)))
                | Raise e => Some (Unhandled e)
                | Return rules_list =>
                    respond_calculation fuel operation start_date
                      (merge_calendar_rules rules_list) false
                      (req_end_date data) (req_business_days data)
                end
            | None, Some calendar_rules =>
                respond_calculation fuel operation start_date calendar_rules
                  (req_rules_other_keys data)
                  (req_end_date data) (req_business_days data)
            end
        end
    end.

(** ** Instances used by the examples *)

Module Iso.

Definition digit (c : ascii) : option Z :=
  let n := Z.of_N (N_of_ascii c) in
  if (48 <=? n) && (n <=? 57) then Some (n - 48) else None.

Definition number (cs : list ascii) : option Z :=
  foldl (fun acc c =>
           match acc, digit c with
           | Some a, Some d => Some (10 * a + d)
           | _, _ => None
           end) (Some 0) cs.

Definition is_dash (c : ascii) : bool := Ascii.eqb c "-"%char.

(** [datetime.strptime(s, "%Y-%m-%d")] on the zero-padded form
    [YYYY-MM-DD]; every other string is rejected here (the library
    also reads months and days written with one digit). *)
Definition iso_strptime (s : string) : option Z :=
  match list_ascii_of_string s with
  | [y1; y2; y3; y4; s1; m1; m2; s2; d1; d2] =>
      if is_dash s1 && is_dash s2 then
        match number [y1; y2; y3; y4], number [m1; m2], number [d1; d2] with
        | Some y, Some m, Some d => of_ymd y m d
        | _, _, _ => None
        end
      else None
  | _ => None
  end.

Definition digit_char (d : Z) : ascii := ascii_of_N (Z.to_N (48 + d mod 10)).

Definition pad2 (n : Z) : list ascii := [digit_char (n / 10); digit_char n].
Definition pad4 (n : Z) : list ascii :=
  [digit_char (n / 1000); digit_char (n / 100); digit_char (n / 10); digit_char n].

(** [d.strftime("%Y-%m-%d")] for the years 1000 to 9999.  Below the
    year 1000 the platform's C library decides whether the year is
    padded to four digits; this instance pads it, and the examples and
    witnesses use it on four-digit years only. *)
Definition iso_strftime (d : Z) : string :=
  let '(y, m, dd) := ord2ymd d in
  string_of_list_ascii (pad4 y ++ "-"%char :: pad2 m ++ "-"%char :: pad2 dd).

Definition codec : DateCodec :=
  {| strptime := iso_strptime; strftime := iso_strftime |}.

(** The date a well-formed literal stands for; 0 otherwise. *)
Definition date (s : string) : Z := default 0 (iso_strptime s).

End Iso.

Module Sample.

(** A provider that knows two countries, one of them with a
    subdivision, and raises for every other argument. *)
Definition sample_holidays (country : string) (subdiv : option string)
    (year : Z) : option (list Z) :=
  if String.eqb country "US" then
    match subdiv with
    | None => Some (omap (fun md => of_ymd year md.1 md.2) [(1, 1); (7, 4); (12, 25)])
    | Some sd =>
        if String.eqb sd "NY"
        then Some (omap (fun md => of_ymd year md.1 md.2)
                     [(1, 1); (2, 12); (7, 4); (12, 25)])
        else None
    end
  else if String.eqb country "UK" then
    match subdiv with
    | None => Some (omap (fun md => of_ymd year md.1 md.2) [(1, 1); (12, 25); (12, 26)])
    | Some _ => None
    end
  else None.

Definition provider : HolidayProvider := {| country_holidays := sample_holidays |}.

(** A provider that raises for every argument. *)
Definition no_provider : HolidayProvider :=
  {| country_holidays := fun _ _ _ => None |}.

(** The table written by [initialize_custom_rules_file]. *)
Definition sample_rules : gmap string override_record :=
  list_to_map
    [("IN-KA", {| display_name := Some "India - Karnataka (Custom Week)";
                  custom_weekend_days := Some [5; 6];
                  custom_holidays := None;
                  custom_makeup_days := None |});
     ("IN-AP", {| display_name := Some "India - Andhra Pradesh (Custom Week)";
                  custom_weekend_days := Some [5; 6];
                  custom_holidays := None;
                  custom_makeup_days := None |});
     ("CN", {| display_name := Some "China (National)";
               custom_weekend_days := None;
               custom_holidays := Some [];
               custom_makeup_days :=
                 Some ["2024-02-04"; "2024-02-18"; "2024-04-28";
                       "2024-05-11"; "2024-09-29"; "2024-10-12";
                       "2025-01-26"; "2025-02-08"] |});
     ("X-CORP", {| display_name := Some "INTERNAL - My Company Calendar";
                   custom_weekend_days := Some [5; 6];
                   custom_holidays :=
                     Some ["2024-12-24"; "2024-12-31"; "2025-12-24"; "2025-12-31"];
                   custom_makeup_days := Some [] |})].

(** A table with one record, whose weekend list is written Sunday
    first. *)
Definition sunday_first : gmap string override_record :=
  {[ "X"%string := {| display_name := None;
                      custom_weekend_days := Some [6; 5];
                      custom_holidays := None;
                      custom_makeup_days := None |} ]}.

(** Two request bodies for [/api/calculate]. *)
Definition by_ids : request :=
  {| req_operation := Some "days_between"%string;
     req_start_date := Some "2024-07-01"%string;
     req_calendar_rules := None;
     req_rules_other_keys := false;
     req_calendar_ids := Some ["US"%string; "NOWHERE"%string];
     req_end_date := Some "2024-07-10"%string;
     req_business_days := None;
     req_other_keys := false |}.


(** A table with one record that holds strings [strptime] rejects. *)
Definition not_a_date : gmap string override_record :=
  {[ "X"%string := {| display_name := None;
                      custom_weekend_days := None;
                      custom_holidays := Some ["2024-12-24"; "soon"];
                      custom_makeup_days := Some ["2024-13-01"] |} ]}.

(** A calendar that works on Saturday 2024-10-19 to make up for a
    holiday on Wednesday 2024-10-16. *)
Definition makeup_saturday : calendar_rules :=
  {| weekend_days := Some [5; 6]; holidays := Some ["2024-10-16"];
     makeup_days := Some ["2024-10-19"] |}.

Definition standard : calendar_rules :=
  {| weekend_days := Some [5; 6]; holidays := Some []; makeup_days := Some [] |}.

(** The two requests of the test suite. *)
Definition run_days_between (start_date end_date : string) (rules : calendar_rules)
    : option (result calculation) :=
  @perform_calculation Iso.codec 10 "days_between" start_date rules (Some end_date) None.

Definition run_future_date (start_date : string) (n : Z) (rules : calendar_rules)
    : option (result calculation) :=
  @perform_calculation Iso.codec 10 "get_future_date" start_date rules None (Some n).

End Sample.

(** ** Reference definitions for the statements *)

(** The number of business days among the dates [d] with
    [start_date < d <= end_date]. *)
Definition business_days_in (start_date end_date : Z)
    (weekend_days_set holidays_set makeup_days_set : gset Z) : Z :=
  Z.of_nat (length (filter
    (fun d => is_business_day d weekend_days_set holidays_set makeup_days_set = true)
    (seqZ (start_date + 1) (end_date - start_date)))).

(** What one date adds to a count of business days. *)
Definition bd_weight (d : Z) (W H M : gset Z) : Z :=
  if is_business_day d W H M then 1 else 0.

(** The provider's answers for the requested years, up to the first
    year for which it raises. *)
Fixpoint answered `{HolidayProvider} (key : string * option string)
    (years : list Z) : list (list Z) :=
  match years with
  | [] => []
  | year :: years' =>
      match country_holidays key.1 key.2 year with
      | Some dates => dates :: answered key years'
      | None => []
      end
  end.

(** The provider raises for one of the requested years. *)
Definition provider_raises `{HolidayProvider} (calendar_id : string)
    (years : list Z) : Prop :=
  exists year, year ∈ years /\
    country_holidays (provider_key calendar_id).1 (provider_key calendar_id).2 year = None.

(** The provider does not know the identifier, whatever the year. *)
Definition provider_unknown `{HolidayProvider} (calendar_id : string) : Prop :=
  forall year,
    country_holidays (provider_key calendar_id).1 (provider_key calendar_id).2 year = None.

(** The override field of a calendar id, [None] when the id has no
    record or the record lacks the field. *)
Definition override_field {A} (custom_rules : gmap string override_record)
    (calendar_id : string) (f : override_record -> option A) : option A :=
  custom_rules !! calendar_id ≫= f.

(** The three sets [perform_calculation] builds from a rule set. *)
Definition weekend_set (rules : calendar_rules) : gset Z :=
  list_to_set (get_list (weekend_days rules)).
Definition holiday_set `{DateCodec} (rules : calendar_rules) : gset Z :=
  parse_dates (get_list (holidays rules)) ∅.
Definition makeup_set `{DateCodec} (rules : calendar_rules) : gset Z :=
  parse_dates (get_list (makeup_days rules)) ∅.

(** A request body with its [calendar_rules] entry replaced. *)
Definition with_calendar_rules (data : request) (v : option calendar_rules)
    (other_keys : bool) : request :=
  {| req_operation := req_operation data;
     req_start_date := req_start_date data;
     req_calendar_rules := v;
     req_rules_other_keys := other_keys;
     req_calendar_ids := req_calendar_ids data;
     req_end_date := req_end_date data;
     req_business_days := req_business_days data;
     req_other_keys := req_other_keys data |}.

(** A date string that [strptime] accepts. *)
Definition well_formed `{DateCodec} (s : string) : Prop := is_Some (strptime s).

(** A rule set without its malformed holiday and makeup strings. *)
Definition drop_malformed `{DateCodec} (rules : calendar_rules) : calendar_rules :=
  {| weekend_days := weekend_days rules;
     holidays := filter well_formed <$> holidays rules;
     makeup_days := filter well_formed <$> makeup_days rules |}.

(** A rule set whose three fields are strictly increasing sequences,
    that is, sorted and free of duplicates. *)
Definition sorted_fields (r : calendar_rules) : Prop :=
  (exists w, weekend_days r = Some w /\ StronglySorted Z.lt w) /\
  (exists h, holidays r = Some h /\ StronglySorted str_lt h) /\
  (exists m, makeup_days r = Some m /\ StronglySorted str_lt m).

(** The walk of [get_future_business_date] never comes to an end. *)
Definition walks_forever (start_date business_days : Z)
    (weekend_days_set holidays_set makeup_days_set : gset Z) : Prop :=
  forall fuel,
    get_future_business_date fuel start_date business_days
      weekend_days_set holidays_set makeup_days_set = None.

(** * Properties *)

(** ** The order on strings and sorted sets *)

Lemma str_le_lt_eq (a b : string) : str_le a b <-> str_lt a b \/ a = b.
Proof.
  unfold str_le, str_lt.
  destruct (String_as_OT.compare_spec a b) as [Heq | Hlt | Hgt].
  - split; [auto | congruence].
  - split; [auto | congruence].
  - split; [congruence |].
    intros [Hc | ->]; [congruence |].
    exfalso. exact (StrictOrder_Irreflexive _ Hgt).
Qed.

#[global] Instance str_lt_trans : Transitive str_lt.
Proof. intros a b c. apply (StrictOrder_Transitive (R := String_as_OT.lt)). Qed.

#[global] Instance str_lt_irrefl : Irreflexive str_lt.
Proof. intros a. apply (StrictOrder_Irreflexive (R := String_as_OT.lt)). Qed.

#[global] Instance str_le_trans : Transitive str_le.
Proof.
  intros a b c. rewrite !str_le_lt_eq.
  intros [Hab | ->] [Hbc | ->]; auto.
  left. by transitivity b.
Qed.

#[global] Instance str_le_total : Total str_le.
Proof.
  intros a b. rewrite !str_le_lt_eq. unfold str_lt.
  destruct (String_as_OT.compare_spec a b) as [Heq | Hlt | Hgt]; auto.
Qed.

Lemma strict_of_nodup {A} (le lt : relation A) (l : list A) :
  (forall a b, le a b -> a <> b -> lt a b) ->
  StronglySorted le l -> NoDup l -> StronglySorted lt l.
Proof.
  intros Hstrict Hs. induction Hs as [| a l Hs IH Hall]; intros Hnd.
  - constructor.
  - inversion Hnd as [| ? ? Hnotin Hnd']; subst.
    constructor; [by apply IH |].
    rewrite Forall_forall in Hall |- *.
    intros b Hb. apply Hstrict; [by apply Hall |].
    intros ->. apply Hnotin. by apply list_elem_of_In.
Qed.

Lemma sorted_strs_elem (s : gset string) (x : string) : x ∈ sorted_strs s <-> x ∈ s.
Proof. unfold sorted_strs. rewrite merge_sort_Permutation. apply elem_of_elements. Qed.

Lemma sorted_ints_elem (s : gset Z) (x : Z) : x ∈ sorted_ints s <-> x ∈ s.
Proof. unfold sorted_ints. rewrite merge_sort_Permutation. apply elem_of_elements. Qed.

Lemma sorted_strs_nodup (s : gset string) : NoDup (sorted_strs s).
Proof. unfold sorted_strs. rewrite merge_sort_Permutation. apply NoDup_elements. Qed.

Lemma sorted_ints_nodup (s : gset Z) : NoDup (sorted_ints s).
Proof. unfold sorted_ints. rewrite merge_sort_Permutation. apply NoDup_elements. Qed.

Lemma sorted_strs_strict (s : gset string) : StronglySorted str_lt (sorted_strs s).
Proof.
  apply (strict_of_nodup str_le).
  - intros a b Hle Hne. apply str_le_lt_eq in Hle as [|]; [done | congruence].
  - apply StronglySorted_merge_sort; apply _.
  - apply sorted_strs_nodup.
Qed.

Lemma sorted_ints_strict (s : gset Z) : StronglySorted Z.lt (sorted_ints s).
Proof.
  apply (strict_of_nodup Z.le).
  - intros a b Hle Hne. lia.
  - apply StronglySorted_merge_sort; apply _.
  - apply sorted_ints_nodup.
Qed.

Lemma sorted_strs_length (s : gset string) : length (sorted_strs s) = size s.
Proof. unfold sorted_strs. by rewrite merge_sort_Permutation. Qed.

(** ** The business-day engine *)

(** A decidable closed proposition, settled by evaluation. *)
Ltac by_decide :=
  match goal with
  | |- ?P => apply (bool_decide_unpack P); vm_compute; exact I
  end.

(** Linear arithmetic with the calendar bounds unfolded. *)
Ltac dates := unfold valid, days_left, MINORD, MAXORD in *; lia.

Section engine.
Context (W H M : gset Z).

Lemma business_days_in_nonneg s e : 0 <= business_days_in s e W H M.
Proof. unfold business_days_in. dates. Qed.

Lemma business_days_in_empty s e : e <= s -> business_days_in s e W H M = 0.
Proof. intros Hle. unfold business_days_in. by rewrite seqZ_nil by dates. Qed.

Lemma business_days_in_step s e :
  s < e ->
  business_days_in s e W H M = bd_weight (s + 1) W H M + business_days_in (s + 1) e W H M.
Proof.
  intros Hlt. unfold business_days_in, bd_weight.
  rewrite (seqZ_cons (s + 1)) by dates.
  replace (Z.succ (s + 1)) with (s + 1 + 1) by dates.
  replace (Z.pred (e - s)) with (e - (s + 1)) by dates.
  rewrite filter_cons.
  destruct (is_business_day (s + 1) W H M) eqn:Hbd.
  - rewrite decide_True by done. simpl length. dates.
  - rewrite decide_False by done. dates.
Qed.

Lemma add_days_next d :
  MINORD - 1 <= d < MAXORD -> add_days d 1 = Return (d + 1).
Proof.
  intros Hd. unfold add_days. cbv zeta.
  destruct (Z.leb_spec MINORD (d + 1)); [| dates].
  destruct (Z.leb_spec (d + 1) MAXORD); [done | dates].
Qed.

Lemma add_days_overflow d : MAXORD <= d -> add_days d 1 = Raise OverflowError.
Proof.
  intros Hd. unfold add_days. cbv zeta.
  destruct (Z.leb_spec (d + 1) MAXORD); [dates |].
  by rewrite andb_false_r.
Qed.

(** The counting loop below the last day of the calendar. *)
Lemma days_between_loop_count fuel : forall cur e acc,
  MINORD <= cur -> e < MAXORD -> (Z.to_nat (e + 1 - cur) <= fuel)%nat ->
  days_between_loop fuel cur e acc W H M
  = Some (Return (acc + business_days_in (cur - 1) e W H M)).
Proof.
  induction fuel as [| fuel IH]; intros cur e acc Hmin Hmax Hfuel.
  - simpl. destruct (Z.leb_spec cur e); [dates |].
    rewrite business_days_in_empty by dates. do 2 f_equal. dates.
  - simpl. destruct (Z.leb_spec cur e) as [Hle | Hgt].
    + rewrite add_days_next by dates.
      rewrite IH by dates.
      rewrite (business_days_in_step (cur - 1) e) by dates.
      unfold bd_weight.
      replace (cur - 1 + 1) with cur by dates.
      replace (cur + 1 - 1) with cur by dates.
      do 2 f_equal. destruct (is_business_day cur W H M); dates.
    + rewrite business_days_in_empty by dates. do 2 f_equal. dates.
Qed.

(** The counting loop when the range ends on the last day of the
    calendar: the increment after the last day raises. *)
Lemma days_between_loop_overflow fuel : forall cur acc,
  MINORD <= cur <= MAXORD -> (Z.to_nat (MAXORD + 1 - cur) <= fuel)%nat ->
  days_between_loop fuel cur MAXORD acc W H M = Some (Raise OverflowError).
Proof.
  induction fuel as [| fuel IH]; intros cur acc Hcur Hfuel; [dates |].
  simpl. destruct (Z.leb_spec cur MAXORD) as [Hle | Hgt]; [| dates].
  destruct (decide (cur = MAXORD)) as [-> | Hne].
  - by rewrite add_days_overflow.
  - rewrite add_days_next by dates.
    apply IH; dates.
Qed.

Lemma calculate_days_between_count fuel start_date end_date :
  valid start_date -> start_date < end_date < MAXORD ->
  (Z.to_nat (end_date - start_date) <= fuel)%nat ->
  calculate_days_between fuel start_date end_date W H M
  = Some (Return (business_days_in start_date end_date W H M)).
Proof.
  intros [Hmin Hmax] Hrange Hfuel. unfold calculate_days_between.
  rewrite add_days_next by dates.
  rewrite days_between_loop_count by dates.
  replace (start_date + 1 - 1) with start_date by lia. done.
Qed.

Lemma calculate_days_between_last_day fuel start_date :
  valid start_date -> start_date < MAXORD ->
  (Z.to_nat (MAXORD - start_date) <= fuel)%nat ->
  calculate_days_between fuel start_date MAXORD W H M = Some (Raise OverflowError).
Proof.
  intros [Hmin Hmax] Hlt Hfuel. unfold calculate_days_between.
  rewrite add_days_next by dates.
  apply days_between_loop_overflow; dates.
Qed.

(** The projection loop: with enough fuel it comes to an end, on the
    date that completes the count when the calendar holds enough
    business days, and on [OverflowError] otherwise. *)
Lemma future_date_loop_spec fuel : forall cur counted n,
  MINORD - 1 <= cur <= MAXORD -> (days_left cur < fuel)%nat ->
  (n - counted <= business_days_in cur MAXORD W H M ->
     exists d, future_date_loop fuel cur counted n W H M = Some (Return d)
       /\ cur <= d <= MAXORD
       /\ business_days_in cur d W H M = Z.max 0 (n - counted)
       /\ (n <= counted -> d = cur)
       /\ (counted < n -> cur < d /\ is_business_day d W H M = true)) /\
  (business_days_in cur MAXORD W H M < n - counted ->
     future_date_loop fuel cur counted n W H M = Some (Raise OverflowError)).
Proof.
  unfold days_left.
  induction fuel as [| fuel IH]; intros cur counted n Hcur Hfuel; [dates |].
  simpl. destruct (Z.ltb_spec counted n) as [Hlt | Hge].
  - destruct (decide (cur = MAXORD)) as [-> | Hne].
    + rewrite add_days_overflow by dates. split; [| done].
      rewrite business_days_in_empty by dates. dates.
    + rewrite add_days_next by dates.
      rewrite (business_days_in_step cur MAXORD) by dates.
      unfold bd_weight.
      destruct (IH (cur + 1)
                  (if is_business_day (cur + 1) W H M then counted + 1 else counted) n)
        as [IHret IHraise]; [dates | dates |].
      destruct (is_business_day (cur + 1) W H M) eqn:Hbd.
      * split; [| intros Hfew; apply IHraise; dates].
        intros Hmany. destruct IHret as (d & Heq & Hd & Hcount & Hstop & Hgo); [dates |].
        exists d. split; [done |]. split; [dates |].
        split; [| split; [dates |]].
        -- rewrite (business_days_in_step cur d) by dates.
           unfold bd_weight. rewrite Hbd, Hcount. dates.
        -- intros _. split; [dates |].
           destruct (decide (counted + 1 < n)) as [Hmore | Hdone].
           ++ by apply Hgo.
           ++ rewrite Hstop by dates. done.
      * split; [| intros Hfew; apply IHraise; dates].
        intros Hmany. destruct IHret as (d & Heq & Hd & Hcount & Hstop & Hgo); [dates |].
        exists d. split; [done |]. split; [dates |].
        split; [| split; [dates |]].
        -- rewrite (business_days_in_step cur d) by dates.
           unfold bd_weight. rewrite Hbd, Hcount. dates.
        -- intros _. destruct Hgo as [Hgo1 Hgo2]; [done |]. split; [dates | done].
  - split.
    + intros _. exists cur. split; [done |]. split; [dates |].
      split; [rewrite business_days_in_empty by dates; dates |].
      split; [done | dates].
    + pose proof (business_days_in_nonneg cur MAXORD). dates.
Qed.

End engine.

(** C1. [is_business_day] is true on every makeup day, whatever the
    weekend days and the holidays; on any other date it is false exactly
    when the date's weekday is a weekend day or the date is a holiday,
    and so true in all remaining cases. *)
Theorem is_business_day_precedence (d : Z) (W H M : gset Z) :
  (d ∈ M -> is_business_day d W H M = true) /\
  (d ∉ M -> (is_business_day d W H M = false <-> weekday d ∈ W \/ d ∈ H)) /\
  (d ∉ M -> weekday d ∉ W -> d ∉ H -> is_business_day d W H M = true).
Proof.
  unfold is_business_day. split; [| split].
  - intros Hin. by rewrite bool_decide_eq_true_2.
  - intros Hm. rewrite (bool_decide_eq_false_2 _ Hm). split.
    + destruct (decide (weekday d ∈ W)) as [Hw | Hw]; [by left |].
      destruct (decide (d ∈ H)) as [Hh | Hh]; [by right |].
      by rewrite (bool_decide_eq_false_2 _ Hw), (bool_decide_eq_false_2 _ Hh).
    + intros [Hw | Hh].
      * by rewrite (bool_decide_eq_true_2 _ Hw).
      * rewrite (bool_decide_eq_true_2 _ Hh). apply andb_false_r.
  - intros Hm Hw Hh.
    by rewrite (bool_decide_eq_false_2 _ Hm), (bool_decide_eq_false_2 _ Hw),
      (bool_decide_eq_false_2 _ Hh).
Qed.

(** A makeup Saturday that is also a holiday is a business day. *)
Lemma is_business_day_precedence_witness :
  is_business_day (Iso.date "2024-10-19") {[5; 6]}
    {[Iso.date "2024-10-19"]} {[Iso.date "2024-10-19"]} = true.
Proof.
  apply (proj1 (is_business_day_precedence _ _ _ _)).
  apply elem_of_singleton. reflexivity.
Defined.

(** ** Counting: [days_between] *)

Lemma add_days_raise d k e : add_days d k = Raise e -> e = OverflowError.
Proof.
  unfold add_days. cbv zeta. destruct (_ && _); [done |]. by intros [= <-].
Qed.

Lemma days_between_loop_raise W H M fuel : forall cur end_date acc e,
  days_between_loop fuel cur end_date acc W H M = Some (Raise e) -> e = OverflowError.
Proof.
  induction fuel as [| fuel IH]; intros cur end_date acc e; simpl.
  - destruct (cur <=? end_date); done.
  - destruct (cur <=? end_date); [| done].
    destruct (add_days cur 1) as [cur' | e'] eqn:Hadd.
    + apply IH.
    + intros [= <-]. by apply add_days_raise in Hadd.
Qed.

(** X25. With both dates parsed, [perform_calculation] rejects the
    range with [InvalidRange] exactly when the end date is not after the
    start date. *)
Lemma perform_calculation_invalid_range `{DateCodec} fuel start_date end_str rules n
    (start_dt end_dt : Z) :
  strptime start_date = Some start_dt ->
  strptime end_str = Some end_dt ->
  end_str <> EmptyString ->
  perform_calculation fuel "days_between" start_date rules (Some end_str) n
    = Some (Raise (ValueError InvalidRange))
  <-> end_dt <= start_dt.
Proof.
  intros Hs He Hne. unfold perform_calculation. rewrite Hs. simpl String.eqb.
  destruct end_str as [| c end_str']; [done |]. rewrite He.
  destruct (Z.leb_spec end_dt start_dt) as [Hle | Hgt]; [done |].
  split; [| lia]. unfold calculate_days_between.
  destruct (add_days start_dt 1) as [cur | e] eqn:Hadd.
  - destruct (days_between_loop _ _ _ _ _ _ _) as [[?|e] |] eqn:Hloop; [done | | done].
    apply days_between_loop_raise in Hloop as ->. done.
  - apply add_days_raise in Hadd as ->. done.
Qed.

(** X26. On a range that ends before the last day of the calendar,
    [perform_calculation] returns the number of business days in
    [(start, end]], with the two date strings as they were given. *)
Lemma perform_calculation_days_between `{DateCodec} fuel start_date end_str rules n
    (start_dt end_dt : Z) :
  strptime start_date = Some start_dt ->
  strptime end_str = Some end_dt ->
  end_str <> EmptyString ->
  valid start_dt -> start_dt < end_dt < MAXORD ->
  (Z.to_nat (end_dt - start_dt) <= fuel)%nat ->
  perform_calculation fuel "days_between" start_date rules (Some end_str) n
    = Some (Return (DaysBetween
        (business_days_in start_dt end_dt
           (list_to_set (get_list (weekend_days rules)))
           (parse_dates (get_list (holidays rules)) ∅)
           (parse_dates (get_list (makeup_days rules)) ∅))
        start_date end_str)).
Proof.
  intros Hs He Hne Hvalid Hrange Hfuel. unfold perform_calculation.
  rewrite Hs. simpl String.eqb.
  destruct end_str as [| c end_str']; [done |]. rewrite He.
  destruct (Z.leb_spec end_dt start_dt) as [Hle | Hgt]; [lia |].
  by rewrite calculate_days_between_count.
Qed.

(** C2. On the range from 9999-12-30 to 9999-12-31 the end date is
    after the start date and is a business day (a Friday) of the
    standard calendar, so the count of [(start, end]] is 1; the
    counting loop counts that day and then raises [OverflowError] when
    it steps past the last day of the calendar, so no count is
    returned. *)
Theorem days_between_last_day_overflows :
  Iso.date "9999-12-30" < Iso.date "9999-12-31" /\
  business_days_in (Iso.date "9999-12-30") (Iso.date "9999-12-31") {[5; 6]} ∅ ∅ = 1 /\
  forall fuel,
    @perform_calculation Iso.codec (S fuel) "days_between" "9999-12-30"
      Sample.standard (Some "9999-12-31"%string) None
    = Some (Raise OverflowError).
Proof.
  split; [reflexivity |]. split; [vm_compute; reflexivity |].
  intros fuel. vm_compute. reflexivity.
Qed.

(** The same holds for every range that ends on the last day of the
    calendar. *)
Lemma perform_calculation_last_day `{DateCodec} fuel start_date end_str rules n
    (start_dt : Z) :
  strptime start_date = Some start_dt ->
  strptime end_str = Some MAXORD ->
  end_str <> EmptyString ->
  valid start_dt -> start_dt < MAXORD ->
  (Z.to_nat (MAXORD - start_dt) <= fuel)%nat ->
  perform_calculation fuel "days_between" start_date rules (Some end_str) n
    = Some (Raise OverflowError).
Proof.
  intros Hs He Hne Hvalid Hlt Hfuel. unfold perform_calculation.
  rewrite Hs. simpl String.eqb.
  destruct end_str as [| c end_str']; [done |]. rewrite He.
  destruct (Z.leb_spec MAXORD start_dt) as [Hle | Hgt]; [lia |].
  by rewrite calculate_days_between_last_day.
Qed.

(** ** Projection: [get_future_date] *)

(** C3. [perform_calculation] with the operation [get_future_date]
    fails with [InvalidCount] on a negative count and, on the count 0,
    returns the start date itself, for every start date that parses and
    every rule set; [get_future_business_date] with the count 0 does not
    enter its loop and returns its start date. *)
Theorem get_future_date_zero_and_negative `{DateCodec} (fuel : nat)
    (start_date : string) (start_dt : Z) (rules : calendar_rules)
    (end_date : option string) :
  strptime start_date = Some start_dt ->
  (forall n, n < 0 ->
     perform_calculation fuel "get_future_date" start_date rules end_date (Some n)
     = Some (Raise (ValueError InvalidCount))) /\
  perform_calculation fuel "get_future_date" start_date rules end_date (Some 0)
    = Some (Return (FutureDate (strftime start_dt) start_date 0)) /\
  (forall W H M,
     get_future_business_date fuel start_dt 0 W H M = Some (Return start_dt)).
Proof.
  intros Hs. split; [| split].
  - intros n Hn. unfold perform_calculation. rewrite Hs. simpl String.eqb.
    destruct (Z.ltb_spec n 0); [done | lia].
  - unfold perform_calculation. rewrite Hs. simpl String.eqb.
    unfold get_future_business_date. by destruct fuel.
  - intros W H0 M. unfold get_future_business_date. by destruct fuel.
Qed.

Lemma get_future_date_zero_and_negative_witness :
  @perform_calculation Iso.codec 0 "get_future_date" "2024-10-14" Sample.standard
    None (Some 0)
  = Some (Return (FutureDate "2024-10-14" "2024-10-14" 0)).
Proof.
  refine (proj1 (proj2 (@get_future_date_zero_and_negative Iso.codec 0
            "2024-10-14" (Iso.date "2024-10-14") Sample.standard None _))).
  reflexivity.
Defined.

(** C10. With fuel for every day left in the calendar,
    [get_future_business_date] always comes to an end.  When at least
    [n] business days exist after the start date (up to 9999-12-31) it
    returns the date on which the count is reached, and for [n >= 1]
    that date is a business day strictly after the start; when fewer
    exist the walk runs past the last day of the calendar and raises
    [OverflowError]. *)
Theorem get_future_business_date_terminates (fuel : nat) (start_date n : Z)
    (W H M : gset Z) :
  valid start_date -> (days_left start_date < fuel)%nat ->
  (n <= business_days_in start_date MAXORD W H M ->
     exists d, get_future_business_date fuel start_date n W H M = Some (Return d)
       /\ start_date <= d <= MAXORD
       /\ business_days_in start_date d W H M = Z.max 0 n
       /\ (1 <= n -> start_date < d /\ is_business_day d W H M = true)) /\
  (business_days_in start_date MAXORD W H M < n ->
     get_future_business_date fuel start_date n W H M = Some (Raise OverflowError)).
Proof.
  intros Hvalid Hfuel. unfold get_future_business_date.
  destruct (future_date_loop_spec W H M fuel start_date 0 n) as [Hret Hraise];
    [dates | done |].
  rewrite Z.sub_0_r in Hret, Hraise. split; [| done].
  intros Hmany. destruct (Hret Hmany) as (d & Heq & Hd & Hcount & _ & Hgo).
  exists d. repeat split; try done; try lia; apply Hgo; lia.
Qed.

Lemma get_future_business_date_terminates_witness :
  exists d,
    get_future_business_date 20 (Iso.date "9999-12-20") 3 {[5; 6]} ∅ ∅ = Some (Return d)
    /\ Iso.date "9999-12-20" <= d <= MAXORD
    /\ business_days_in (Iso.date "9999-12-20") d {[5; 6]} ∅ ∅ = Z.max 0 3
    /\ (1 <= 3 -> Iso.date "9999-12-20" < d /\ is_business_day d {[5; 6]} ∅ ∅ = true).
Proof.
  apply (proj1 (get_future_business_date_terminates 20 (Iso.date "9999-12-20") 3
                  {[5; 6]} ∅ ∅ ltac:(vm_compute; split; discriminate)
                  ltac:(vm_compute; lia))).
  vm_compute. discriminate.
Defined.

(** The walk does not run forever when no business day is left: on a
    calendar whose seven weekdays are all weekend days no date is a
    business day, and yet the walk from 9999-12-30 for one business day
    comes to an end, on [OverflowError]. *)
Lemma get_future_business_date_no_divergence :
  ~ (forall start_date n W H M,
       (forall d, start_date < d -> is_business_day d W H M = false) ->
       1 <= n -> walks_forever start_date n W H M).
Proof.
  intros Hall.
  specialize (Hall (Iso.date "9999-12-30") 1 (list_to_set [0; 1; 2; 3; 4; 5; 6]) ∅ ∅).
  assert (Hnone : forall d : Z,
             is_business_day d (list_to_set [0; 1; 2; 3; 4; 5; 6]) ∅ ∅ = false).
  { intros d. unfold is_business_day.
    rewrite bool_decide_eq_false_2 by set_solver.
    rewrite bool_decide_eq_true_2; [done |].
    unfold weekday. pose proof (Z.mod_pos_bound (d + 6) 7 ltac:(lia)) as Hb.
    apply elem_of_list_to_set. rewrite !elem_of_cons. lia. }
  specialize (Hall (fun d _ => Hnone d) ltac:(lia) 2%nat).
  vm_compute in Hall. discriminate.
Qed.

(** ** Merging calendars *)

Lemma merge_fold_weekend (l : list calendar_rules) : forall acc x,
  x ∈ (foldl merge_step acc l).1.1
  <-> x ∈ acc.1.1 \/ exists r, r ∈ l /\ x ∈ get_list (weekend_days r).
Proof.
  induction l as [| r l IH]; intros [[w h] m] x; simpl.
  - split; [auto |]. intros [? | (r & Hr & _)]; [done |]. by apply elem_of_nil in Hr.
  - rewrite IH. simpl. rewrite elem_of_union, elem_of_list_to_set. split.
    + intros [[? | ?] | (r' & Hr' & ?)]; [by left | right; exists r | right; exists r'];
        (split; [| done]); [apply elem_of_cons; by left | apply elem_of_cons; by right].
    + intros [? | (r' & Hr' & ?)]; [by left; left |].
      apply elem_of_cons in Hr' as [-> | Hr']; [by left; right |].
      right. by exists r'.
Qed.

Lemma merge_fold_holidays (l : list calendar_rules) : forall acc x,
  x ∈ (foldl merge_step acc l).1.2
  <-> x ∈ acc.1.2 \/ exists r, r ∈ l /\ x ∈ get_list (holidays r).
Proof.
  induction l as [| r l IH]; intros [[w h] m] x; simpl.
  - split; [auto |]. intros [? | (r & Hr & _)]; [done |]. by apply elem_of_nil in Hr.
  - rewrite IH. simpl. rewrite elem_of_union, elem_of_list_to_set. split.
    + intros [[? | ?] | (r' & Hr' & ?)]; [by left | right; exists r | right; exists r'];
        (split; [| done]); [apply elem_of_cons; by left | apply elem_of_cons; by right].
    + intros [? | (r' & Hr' & ?)]; [by left; left |].
      apply elem_of_cons in Hr' as [-> | Hr']; [by left; right |].
      right. by exists r'.
Qed.

Lemma merge_fold_makeup (l : list calendar_rules) : forall acc x,
  x ∈ (foldl merge_step acc l).2
  <-> x ∈ acc.2 \/ exists r, r ∈ l /\ x ∈ get_list (makeup_days r).
Proof.
  induction l as [| r l IH]; intros [[w h] m] x; simpl.
  - split; [auto |]. intros [? | (r & Hr & _)]; [done |]. by apply elem_of_nil in Hr.
  - rewrite IH. simpl. rewrite elem_of_union, elem_of_list_to_set. split.
    + intros [[? | ?] | (r' & Hr' & ?)]; [by left | right; exists r | right; exists r'];
        (split; [| done]); [apply elem_of_cons; by left | apply elem_of_cons; by right].
    + intros [? | (r' & Hr' & ?)]; [by left; left |].
      apply elem_of_cons in Hr' as [-> | Hr']; [by left; right |].
      right. by exists r'.
Qed.

(** On two or more rule sets the merge is the sorted presentation of the
    three accumulated sets. *)
Lemma merge_calendar_rules_many (l : list calendar_rules) :
  (2 <= length l)%nat ->
  merge_calendar_rules l
  = {| weekend_days := Some (sorted_ints (foldl merge_step (∅, ∅, ∅) l).1.1);
       holidays := Some (sorted_strs (foldl merge_step (∅, ∅, ∅) l).1.2);
       makeup_days := Some (sorted_strs (foldl merge_step (∅, ∅, ∅) l).2) |}.
Proof.
  intros Hlen. destruct l as [| a [| b l]]; simpl in Hlen; [lia | lia |].
  unfold merge_calendar_rules.
  by destruct (foldl merge_step (∅, ∅, ∅) (a :: b :: l)) as [[w h] m].
Qed.

(** C6. On two or more rule sets [merge_calendar_rules] returns the
    field-wise union: each field of the result is a duplicate-free list
    whose members are exactly the members of that field in some input.
    For two normalized rule sets with disjoint holidays the merged
    holiday count is the sum of the two counts, and merging the weekend
    [5, 6] with the weekend [4, 5] gives [4, 5, 6]. *)
Theorem merge_calendar_rules_union :
  (forall l : list calendar_rules, (2 <= length l)%nat ->
     exists w h m,
       merge_calendar_rules l
       = {| weekend_days := Some w; holidays := Some h; makeup_days := Some m |}
       /\ (forall x, x ∈ w <-> exists r, r ∈ l /\ x ∈ get_list (weekend_days r))
       /\ (forall x, x ∈ h <-> exists r, r ∈ l /\ x ∈ get_list (holidays r))
       /\ (forall x, x ∈ m <-> exists r, r ∈ l /\ x ∈ get_list (makeup_days r))
       /\ NoDup w /\ NoDup h /\ NoDup m) /\
  (forall a b : calendar_rules,
     normalized a -> normalized b ->
     (forall x, x ∈ get_list (holidays a) -> x ∉ get_list (holidays b)) ->
     length (get_list (holidays (merge_calendar_rules [a; b])))
     = (length (get_list (holidays a)) + length (get_list (holidays b)))%nat) /\
  weekend_days (merge_calendar_rules
    [ {| weekend_days := Some [5; 6]; holidays := Some []; makeup_days := Some [] |};
      {| weekend_days := Some [4; 5]; holidays := Some []; makeup_days := Some [] |} ])
  = Some [4; 5; 6].
Proof.
  split; [| split].
  - intros l Hlen. rewrite merge_calendar_rules_many by done.
    eexists _, _, _. split; [reflexivity |].
    repeat split.
    + rewrite sorted_ints_elem, merge_fold_weekend. intros [Hx | ?]; [| done].
      by apply not_elem_of_empty in Hx.
    + intros ?. apply sorted_ints_elem, merge_fold_weekend. by right.
    + rewrite sorted_strs_elem, merge_fold_holidays. intros [Hx | ?]; [| done].
      by apply not_elem_of_empty in Hx.
    + intros ?. apply sorted_strs_elem, merge_fold_holidays. by right.
    + rewrite sorted_strs_elem, merge_fold_makeup. intros [Hx | ?]; [| done].
      by apply not_elem_of_empty in Hx.
    + intros ?. apply sorted_strs_elem, merge_fold_makeup. by right.
    + apply sorted_ints_nodup.
    + apply sorted_strs_nodup.
    + apply sorted_strs_nodup.
  - intros a b (_ & (ha & Ha & Hnda) & _) (_ & (hb & Hb & Hndb) & _) Hdisj.
    rewrite merge_calendar_rules_many by (simpl; lia).
    simpl. rewrite Ha, Hb in *. simpl in *.
    rewrite sorted_strs_length, size_union.
    + rewrite size_union by set_solver.
      rewrite size_empty, !size_list_to_set by done. lia.
    + intros x Hx1 Hx2. apply elem_of_list_to_set in Hx2.
      apply elem_of_union in Hx1 as [Hx1 | Hx1]; [set_solver |].
      apply elem_of_list_to_set in Hx1. by apply (Hdisj x).
  - vm_compute. reflexivity.
Qed.

Lemma merge_calendar_rules_union_witness :
  length (get_list (holidays (merge_calendar_rules
    [ {| weekend_days := Some [5; 6]; holidays := Some ["2024-07-04"; "2024-12-25"];
         makeup_days := Some [] |};
      {| weekend_days := Some [5; 6]; holidays := Some ["2024-12-26"];
         makeup_days := Some [] |} ])))
  = (2 + 1)%nat.
Proof.
  apply (proj1 (proj2 merge_calendar_rules_union)
           {| weekend_days := Some [5; 6]; holidays := Some ["2024-07-04"; "2024-12-25"];
              makeup_days := Some [] |}
           {| weekend_days := Some [5; 6]; holidays := Some ["2024-12-26"];
              makeup_days := Some [] |}).
  - unfold normalized. simpl. repeat split; eexists; (split; [reflexivity |]); by_decide.
  - unfold normalized. simpl. repeat split; eexists; (split; [reflexivity |]); by_decide.
  - simpl. intros x Hx Hx'. apply list_elem_of_singleton in Hx' as ->.
    revert Hx. by_decide.
Defined.

(** C7. [merge_calendar_rules] on the empty list returns the rule set
    whose three fields are empty, and on a one-element list returns that
    element. *)
Theorem merge_calendar_rules_empty_and_single :
  merge_calendar_rules []
  = {| weekend_days := Some []; holidays := Some []; makeup_days := Some [] |}
  /\ forall r : calendar_rules, merge_calendar_rules [r] = r.
Proof. split; [reflexivity | intros r; reflexivity]. Qed.

(** ** Resolving a calendar *)

Lemma apply_custom_weekend custom weekend hol mk :
  (apply_custom custom (weekend, hol, mk)).1.1
  = default weekend (custom_weekend_days custom).
Proof. unfold apply_custom. by destruct (custom_weekend_days custom). Qed.

Lemma apply_custom_holidays custom weekend hol mk :
  (apply_custom custom (weekend, hol, mk)).1.2
  = hol ∪ list_to_set (get_list (custom_holidays custom)).
Proof.
  unfold apply_custom, get_list. simpl.
  destruct (custom_holidays custom) as [[| s l] |]; simpl;
    by rewrite ?union_empty_r_L.
Qed.

Lemma apply_custom_makeup custom weekend hol mk :
  (apply_custom custom (weekend, hol, mk)).2
  = mk ∪ list_to_set (get_list (custom_makeup_days custom)).
Proof.
  unfold apply_custom, get_list. simpl.
  destruct (custom_makeup_days custom) as [l |]; simpl;
    by rewrite ?union_empty_r_L.
Qed.

Section resolve.
Context {provider : HolidayProvider} {codec : DateCodec}.

Lemma load_holidays_fst key years : forall acc,
  (load_holidays key years acc).1
  = acc ∪ list_to_set (strftime <$> concat (answered key years)).
Proof.
  induction years as [| y years IH]; intros acc; simpl.
  - by rewrite union_empty_r_L.
  - destruct (country_holidays key.1 key.2 y) as [dates |]; simpl.
    + by rewrite IH, fmap_app, list_to_set_app_L, assoc_L by apply _.
    + by rewrite union_empty_r_L.
Qed.

Lemma load_holidays_snd key years : forall acc,
  (load_holidays key years acc).2 = false
  <-> exists y, y ∈ years /\ country_holidays key.1 key.2 y = None.
Proof.
  induction years as [| y years IH]; intros acc; simpl.
  - split; [done |]. intros (y & Hy & _). by apply elem_of_nil in Hy.
  - destruct (country_holidays key.1 key.2 y) as [dates |] eqn:Hy; simpl.
    + rewrite IH. split.
      * intros (y' & Hin & Hnone). exists y'. split; [| done].
        apply elem_of_cons. by right.
      * intros (y' & Hin & Hnone). exists y'. split; [| done].
        apply elem_of_cons in Hin as [-> | Hin]; [congruence | done].
    + split; [| done]. intros _. exists y. split; [| done].
      apply elem_of_cons. by left.
Qed.

(** When the provider answers for every requested year, the gathered
    holidays are the dates of all its answers. *)
Lemma answered_complete key years (d : Z) :
  (forall y, y ∈ years -> is_Some (country_holidays key.1 key.2 y)) ->
  d ∈ concat (answered key years)
  <-> exists y dates, y ∈ years /\ country_holidays key.1 key.2 y = Some dates
                      /\ d ∈ dates.
Proof.
  induction years as [| y years IH]; intros Hall; simpl.
  - split; [intros Hd; by apply elem_of_nil in Hd |].
    intros (y & dates & Hy & _). by apply elem_of_nil in Hy.
  - destruct (Hall y) as [dates Hy]; [apply elem_of_cons; by left |].
    rewrite Hy. simpl. rewrite elem_of_app, IH.
    + split.
      * intros [Hd | (y' & dates' & Hin & Hy' & Hd)].
        -- exists y, dates. split; [apply elem_of_cons; by left | done].
        -- exists y', dates'. split; [apply elem_of_cons; by right | done].
      * intros (y' & dates' & Hin & Hy' & Hd).
        apply elem_of_cons in Hin as [-> | Hin].
        -- left. congruence.
        -- right. by exists y', dates'.
    + intros y' Hin. apply Hall. apply elem_of_cons. by right.
Qed.

(** The result of [get_calendar_rules], written out. *)
Lemma get_calendar_rules_unfold custom_rules calendar_id years :
  get_calendar_rules custom_rules calendar_id years
  = if negb (load_holidays (provider_key calendar_id) years ∅).2
       && negb (bool_decide (is_Some (custom_rules !! calendar_id)))
    then Raise (ValueError UnknownCalendar)
    else
      let hol := (load_holidays (provider_key calendar_id) years ∅).1 in
      let rules :=
        match custom_rules !! calendar_id with
        | Some custom => apply_custom custom ([5; 6], hol, ∅)
        | None => ([5; 6], hol, ∅)
        end in
      Return {| weekend_days := Some rules.1.1;
                holidays := Some (sorted_strs rules.1.2);
                makeup_days := Some (sorted_strs rules.2) |}.
Proof.
  unfold get_calendar_rules.
  destruct (load_holidays (provider_key calendar_id) years ∅) as [hol loaded].
  simpl. destruct (negb loaded && _); [done |].
  destruct (custom_rules !! calendar_id) as [custom |]; [| done].
  by destruct (apply_custom custom ([5; 6], hol, ∅)) as [[w h] m].
Qed.

Lemma get_calendar_rules_raises custom_rules calendar_id years e :
  get_calendar_rules custom_rules calendar_id years = Raise e
  <-> e = ValueError UnknownCalendar
      /\ provider_raises calendar_id years /\ custom_rules !! calendar_id = None.
Proof.
  rewrite get_calendar_rules_unfold. unfold provider_raises.
  rewrite <- (load_holidays_snd (provider_key calendar_id) years ∅).
  destruct (load_holidays (provider_key calendar_id) years ∅).2; simpl.
  - split; [done |]. by intros (_ & ? & _).
  - destruct (custom_rules !! calendar_id) as [custom |] eqn:Hc.
    + rewrite bool_decide_eq_true_2 by eauto. simpl.
      split; [done |]. by intros (_ & _ & ?).
    + rewrite bool_decide_eq_false_2 by (by intros [? ?]). simpl.
      split; [by intros [= <-] | by intros (-> & _)].
Qed.

(** The rule set [get_calendar_rules] returns, written with sets. *)
Lemma get_calendar_rules_returns custom_rules calendar_id years r :
  get_calendar_rules custom_rules calendar_id years = Return r ->
  r = {| weekend_days :=
           Some (default [5; 6]
                   (override_field custom_rules calendar_id custom_weekend_days));
         holidays :=
           Some (sorted_strs
             (list_to_set (strftime <$> concat (answered (provider_key calendar_id) years))
              ∪ list_to_set
                  (get_list (override_field custom_rules calendar_id custom_holidays))));
         makeup_days :=
           Some (sorted_strs
             (list_to_set
                (get_list (override_field custom_rules calendar_id custom_makeup_days)))) |}.
Proof.
  rewrite get_calendar_rules_unfold. unfold override_field.
  destruct (negb _ && negb _); [done |]. cbv zeta.
  rewrite load_holidays_fst, union_empty_l_L.
  destruct (custom_rules !! calendar_id) as [custom |].
  - rewrite apply_custom_weekend, apply_custom_holidays, apply_custom_makeup.
    rewrite union_empty_l_L. by intros [= <-].
  - intros [= <-]. simpl. by rewrite union_empty_r_L.
Qed.

End resolve.

(** X27. [get_calendar_rules] fails with [UnknownCalendar] exactly when
    the provider raises for one of the requested years and the
    identifier has no override record.  When the provider raises and an
    override record exists, the failure is swallowed and a rule set is
    returned.  For a non-empty list of years and an identifier the
    provider does not know, it fails exactly when no override record
    exists. *)
Theorem get_calendar_rules_unknown `{HolidayProvider} `{DateCodec}
    (custom_rules : gmap string override_record) (calendar_id : string)
    (years : list Z) :
  (get_calendar_rules custom_rules calendar_id years = Raise (ValueError UnknownCalendar)
   <-> provider_raises calendar_id years /\ custom_rules !! calendar_id = None) /\
  (provider_raises calendar_id years -> is_Some (custom_rules !! calendar_id) ->
   exists r, get_calendar_rules custom_rules calendar_id years = Return r) /\
  (years <> [] -> provider_unknown calendar_id ->
   (get_calendar_rules custom_rules calendar_id years = Raise (ValueError UnknownCalendar)
    <-> custom_rules !! calendar_id = None)).
Proof.
  split; [| split].
  - rewrite get_calendar_rules_raises.
    split; [by intros (_ & ? & ?) | by intros [? ?]].
  - intros Hraises [custom Hc].
    destruct (get_calendar_rules custom_rules calendar_id years) as [r | e] eqn:Hr;
      [by exists r |].
    apply get_calendar_rules_raises in Hr as (_ & _ & Hnone). congruence.
  - intros Hne Hunknown. rewrite get_calendar_rules_raises.
    split; [by intros (_ & _ & ?) |]. intros Hnone. split; [done |]. split; [| done].
    destruct years as [| y years]; [done |].
    exists y. split; [apply elem_of_cons; by left | apply Hunknown].
Qed.

Lemma get_calendar_rules_unknown_witness :
  exists r, @get_calendar_rules Sample.provider Iso.codec Sample.sample_rules
              "X-CORP" [2024; 2025] = Return r.
Proof.
  apply (proj1 (proj2 (@get_calendar_rules_unknown Sample.provider Iso.codec
                         Sample.sample_rules "X-CORP" [2024; 2025]))).
  - exists 2024. split; [by_decide | reflexivity].
  - by_decide.
Defined.

(** With an empty list of years the provider is not asked, so
    [get_calendar_rules] raises for no identifier at all. *)
Lemma get_calendar_rules_empty_years `{HolidayProvider} `{DateCodec}
    (custom_rules : gmap string override_record) (calendar_id : string) :
  exists r, get_calendar_rules custom_rules calendar_id [] = Return r.
Proof.
  destruct (get_calendar_rules custom_rules calendar_id []) as [r | e] eqn:Hr;
    [by exists r |].
  apply get_calendar_rules_raises in Hr as (_ & (y & Hy & _) & _).
  by apply elem_of_nil in Hy.
Qed.

(** C4. The identifier [BOGUS] is absent from a provider that knows no
    calendar and from an empty override table, so resolving it is to
    fail with [UnknownCalendar], as the docstring of
    [get_calendar_rules] says ("Raises: ValueError: If calendar_id is
    invalid and not in custom rules"); with the empty list of years the
    code instead returns the default rule set. *)
Theorem get_calendar_rules_unknown_id_resolves :
  @provider_unknown Sample.no_provider "BOGUS"
  /\ (∅ : gmap string override_record) !! "BOGUS"%string = None
  /\ @get_calendar_rules Sample.no_provider Iso.codec ∅ "BOGUS" []
      = Return {| weekend_days := Some [5; 6]; holidays := Some [];
                  makeup_days := Some [] |}.
Proof.
  split; [by intros y |]. split; [reflexivity |]. vm_compute. reflexivity.
Qed.

(** Being unknown to both sources does not make resolution fail when
    the list of years is empty: the provider is not asked, so the
    identifier resolves to the defaults. *)
Lemma get_calendar_rules_no_years :
  ~ (forall (P : HolidayProvider) (C : DateCodec)
       (custom_rules : gmap string override_record) calendar_id years,
       get_calendar_rules custom_rules calendar_id years
         = Raise (ValueError UnknownCalendar)
       <-> provider_unknown calendar_id /\ custom_rules !! calendar_id = None).
Proof.
  intros Hall.
  destruct (Hall Sample.no_provider Iso.codec ∅ "BOGUS"%string []) as [_ Hfail].
  discriminate Hfail. split; [by intros y | reflexivity].
Qed.

(** C5. A rule set returned by [get_calendar_rules] has for weekend the
    override's weekend list when the record has one and the default
    [5, 6] otherwise; its holidays are the provider's holidays together
    with the override's holidays, and its makeup days are the override's
    makeup days; an absent override field adds nothing. *)
Theorem get_calendar_rules_layers `{HolidayProvider} `{DateCodec}
    (custom_rules : gmap string override_record) (calendar_id : string)
    (years : list Z) (r : calendar_rules) :
  get_calendar_rules custom_rules calendar_id years = Return r ->
  weekend_days r
    = Some (default [5; 6] (override_field custom_rules calendar_id custom_weekend_days)) /\
  exists h m,
    holidays r = Some h /\ makeup_days r = Some m /\
    (forall s, s ∈ h <->
       s ∈ strftime <$> concat (answered (provider_key calendar_id) years)
       \/ s ∈ get_list (override_field custom_rules calendar_id custom_holidays)) /\
    (forall s, s ∈ m <->
       s ∈ get_list (override_field custom_rules calendar_id custom_makeup_days)).
Proof.
  intros ->%get_calendar_rules_returns. split; [done |].
  eexists _, _. split; [reflexivity |]. split; [reflexivity |]. split.
  - intros s. by rewrite sorted_strs_elem, elem_of_union, !elem_of_list_to_set.
  - intros s. by rewrite sorted_strs_elem, elem_of_list_to_set.
Qed.

Lemma get_calendar_rules_layers_witness :
  weekend_days
    {| weekend_days := Some [5; 6];
       holidays := Some ["2024-12-24"; "2024-12-31"; "2025-12-24"; "2025-12-31"];
       makeup_days := Some [] |}
  = Some (default [5; 6]
            (override_field Sample.sample_rules "X-CORP" custom_weekend_days)).
Proof.
  apply (proj1 (@get_calendar_rules_layers Sample.provider Iso.codec
                  Sample.sample_rules "X-CORP" [2024; 2025] _ ltac:(vm_compute; reflexivity))).
Defined.

(** C8. A rule set returned by [get_calendar_rules] has its holidays
    and its makeup days sorted and free of duplicates; its weekend days
    are the default [5, 6] or the override's list as it stands, so the
    three fields are sorted and free of duplicates whenever the
    override's weekend list is. *)
Theorem get_calendar_rules_sorted `{HolidayProvider} `{DateCodec}
    (custom_rules : gmap string override_record) (calendar_id : string)
    (years : list Z) (r : calendar_rules) :
  get_calendar_rules custom_rules calendar_id years = Return r ->
  (exists h, holidays r = Some h /\ StronglySorted str_lt h) /\
  (exists m, makeup_days r = Some m /\ StronglySorted str_lt m) /\
  weekend_days r
    = Some (default [5; 6] (override_field custom_rules calendar_id custom_weekend_days)) /\
  ((forall w, override_field custom_rules calendar_id custom_weekend_days = Some w ->
              StronglySorted Z.lt w) ->
   sorted_fields r).
Proof.
  intros ->%get_calendar_rules_returns.
  assert (Hstrs : forall X, exists l, Some (sorted_strs X) = Some l /\ StronglySorted str_lt l).
  { intros X. eexists. split; [reflexivity | apply sorted_strs_strict]. }
  split; [apply Hstrs |]. split; [apply Hstrs |]. split; [done |].
  intros Hweekend. split; [| split; apply Hstrs].
  eexists. split; [reflexivity |].
  destruct (override_field custom_rules calendar_id custom_weekend_days) as [w |] eqn:Ho;
    simpl; [by apply Hweekend |].
  repeat constructor; lia.
Qed.

Lemma get_calendar_rules_sorted_witness :
  sorted_fields
    {| weekend_days := Some [5; 6];
       holidays := Some ["2024-12-24"; "2024-12-31"; "2025-12-24"; "2025-12-31"];
       makeup_days := Some [] |}.
Proof.
  apply (proj2 (proj2 (proj2 (@get_calendar_rules_sorted Sample.provider Iso.codec
           Sample.sample_rules "X-CORP" [2024; 2025] _ ltac:(vm_compute; reflexivity))))).
  intros w Hw. vm_compute in Hw. injection Hw as <-. repeat constructor; lia.
Defined.

(** The weekend days of a resolved rule set need not be sorted: an
    override record with the weekend list [6, 5] resolves to a rule set
    whose weekend days are [6, 5]. *)
Lemma get_calendar_rules_weekend_verbatim :
  ~ (forall (P : HolidayProvider) (C : DateCodec)
       (custom_rules : gmap string override_record) calendar_id years r,
       get_calendar_rules custom_rules calendar_id years = Return r ->
       sorted_fields r).
Proof.
  intros Hall.
  destruct (Hall Sample.no_provider Iso.codec Sample.sunday_first "X"%string [2024]
              {| weekend_days := Some [6; 5]; holidays := Some []; makeup_days := Some [] |}
              ltac:(vm_compute; reflexivity)) as ((w & Hw & Hsorted) & _).
  simpl in Hw. injection Hw as <-.
  inversion Hsorted as [| ? ? _ Hfirst]; subst.
  inversion Hfirst as [| ? ? Hlt _]; subst. lia.
Qed.

(** ** Malformed date strings *)

Lemma parse_dates_filter `{DateCodec} (strs : list string) : forall acc,
  parse_dates (filter well_formed strs) acc = parse_dates strs acc.
Proof.
  induction strs as [| s strs IH]; intros acc; [done |].
  rewrite filter_cons.
  destruct (decide (well_formed s)) as [[dt Hs] | Hs].
  - simpl. by rewrite Hs, IH.
  - simpl. destruct (strptime s) as [dt |] eqn:Hdt; [| apply IH].
    exfalso. apply Hs. unfold well_formed. rewrite Hdt. eauto.
Qed.

Lemma parse_dates_drop_malformed `{DateCodec} (strs : option (list string)) :
  parse_dates (get_list (filter well_formed <$> strs)) ∅ = parse_dates (get_list strs) ∅.
Proof. destruct strs as [l |]; [apply parse_dates_filter | done]. Qed.

(** The dates [parse_dates] gathers are those of the strings that
    [strptime] accepts. *)
Lemma elem_of_parse_dates `{DateCodec} (strs : list string) (d : Z) : forall acc,
  d ∈ parse_dates strs acc <-> d ∈ acc \/ exists s, s ∈ strs /\ strptime s = Some d.
Proof.
  induction strs as [| s strs IH]; intros acc; simpl.
  - split; [by left |]. intros [? | (s & Hs & _)]; [done |]. by apply elem_of_nil in Hs.
  - destruct (strptime s) as [dt |] eqn:Hs; rewrite IH.
    + rewrite elem_of_union, elem_of_singleton. split.
      * intros [[? | ->] | (s' & Hin & ?)]; [by left | right; exists s | right; exists s'];
          (split; [| done]); apply elem_of_cons; [by left | by right].
      * intros [? | (s' & Hin & Hs')]; [by left; left |].
        apply elem_of_cons in Hin as [-> | Hin]; [left; right; congruence |].
        right. by exists s'.
    + split.
      * intros [? | (s' & Hin & ?)]; [by left |]. right. exists s'.
        split; [apply elem_of_cons; by right | done].
      * intros [? | (s' & Hin & Hs')]; [by left |].
        apply elem_of_cons in Hin as [-> | Hin]; [congruence |].
        right. by exists s'.
Qed.

(** C9. [perform_calculation] gives the same result on a rule set and on
    that rule set without the holiday and makeup strings that [strptime]
    rejects; and [get_calendar_rules] returns a rule set for every
    identifier that has an override record, whatever strings the record
    holds, and that rule set keeps the record's makeup and holiday
    strings. *)
Theorem malformed_dates_skipped :
  (forall (C : DateCodec) fuel operation start_date rules end_date business_days,
     perform_calculation fuel operation start_date rules end_date business_days
     = perform_calculation fuel operation start_date (drop_malformed rules)
         end_date business_days) /\
  (forall (P : HolidayProvider) (C : DateCodec)
     (custom_rules : gmap string override_record) calendar_id years custom,
     custom_rules !! calendar_id = Some custom ->
     exists r, get_calendar_rules custom_rules calendar_id years = Return r
       /\ (forall s, s ∈ get_list (custom_holidays custom) -> s ∈ get_list (holidays r))
       /\ (forall s, s ∈ get_list (custom_makeup_days custom)
                     -> s ∈ get_list (makeup_days r))).
Proof.
  split.
  - intros C fuel operation start_date rules end_date business_days.
    unfold perform_calculation, drop_malformed. cbn [weekend_days holidays makeup_days].
    by rewrite !parse_dates_drop_malformed.
  - intros P C custom_rules calendar_id years custom Hc.
    destruct (get_calendar_rules custom_rules calendar_id years) as [r | e] eqn:Hr.
    + exists r. split; [done |].
      apply get_calendar_rules_returns in Hr as ->. unfold override_field.
      rewrite Hc. simpl. split; intros s Hs; apply sorted_strs_elem.
      * apply elem_of_union. right. by apply elem_of_list_to_set.
      * by apply elem_of_list_to_set.
    + apply get_calendar_rules_raises in Hr as (_ & _ & Hnone). congruence.
Qed.

Lemma malformed_dates_skipped_witness :
  exists r, @get_calendar_rules Sample.no_provider Iso.codec Sample.not_a_date
              "X" [2024; 2025] = Return r
    /\ (forall s, s ∈ ["2024-12-24"; "soon"] -> s ∈ get_list (holidays r))
    /\ (forall s, s ∈ ["2024-13-01"] -> s ∈ get_list (makeup_days r)).
Proof.
  apply (proj2 malformed_dates_skipped Sample.no_provider Iso.codec Sample.not_a_date
           "X"%string [2024; 2025]
           {| display_name := None; custom_weekend_days := None;
              custom_holidays := Some ["2024-12-24"; "soon"];
              custom_makeup_days := Some ["2024-13-01"] |}).
  vm_compute. reflexivity.
Defined.

(** ** The examples of the specification and of the test suite *)

Module Examples.
Import Sample.

Example monday_is_weekday_0 : weekday (Iso.date "2024-10-14") = 0.
Proof. reflexivity. Qed.

Example last_day_is_maxord : Iso.date "9999-12-31" = MAXORD.
Proof. reflexivity. Qed.

Example days_between_simple :
  run_days_between "2024-10-14" "2024-10-16" standard
  = Some (Return (DaysBetween 2 "2024-10-14" "2024-10-16")).
Proof. vm_compute. reflexivity. Qed.

Example days_between_cross_weekend :
  run_days_between "2024-10-18" "2024-10-21" standard
  = Some (Return (DaysBetween 1 "2024-10-18" "2024-10-21")).
Proof. vm_compute. reflexivity. Qed.

Example days_between_with_holiday :
  run_days_between "2024-10-14" "2024-10-18"
    {| weekend_days := Some [5; 6]; holidays := Some ["2024-10-16"];
       makeup_days := Some [] |}
  = Some (Return (DaysBetween 3 "2024-10-14" "2024-10-18")).
Proof. vm_compute. reflexivity. Qed.

Example makeup_day_on_weekend :
  run_days_between "2024-10-14" "2024-10-21"
    {| weekend_days := Some [5; 6]; holidays := Some ["2024-10-16"];
       makeup_days := Some ["2024-10-19"] |}
  = Some (Return (DaysBetween 5 "2024-10-14" "2024-10-21")).
Proof. vm_compute. reflexivity. Qed.

Example days_between_same_day :
  run_days_between "2024-10-14" "2024-10-14" standard
  = Some (Raise (ValueError InvalidRange)).
Proof. vm_compute. reflexivity. Qed.

Example get_future_date_simple :
  run_future_date "2024-10-14" 3 standard
  = Some (Return (FutureDate "2024-10-17" "2024-10-14" 3)).
Proof. vm_compute. reflexivity. Qed.

Example get_future_date_cross_weekend :
  run_future_date "2024-10-17" 4 standard
  = Some (Return (FutureDate "2024-10-23" "2024-10-17" 4)).
Proof. vm_compute. reflexivity. Qed.

Example get_calendar_rules_custom_only :
  @get_calendar_rules provider Iso.codec sample_rules "X-CORP" [2024; 2025]
  = Return {| weekend_days := Some [5; 6];
              holidays := Some ["2024-12-24"; "2024-12-31"; "2025-12-24"; "2025-12-31"];
              makeup_days := Some [] |}.
Proof. vm_compute. reflexivity. Qed.

Example get_calendar_rules_invalid :
  @get_calendar_rules provider Iso.codec sample_rules "INVALID-CAL" [2024; 2025]
  = Raise (ValueError UnknownCalendar).
Proof. vm_compute. reflexivity. Qed.

Example merge_multiple_calendars :
  merge_calendar_rules
    [ {| weekend_days := Some [5; 6]; holidays := Some ["2024-07-04"; "2024-12-25"];
         makeup_days := Some [] |};
      {| weekend_days := Some [5; 6]; holidays := Some ["2024-12-25"; "2024-12-26"];
         makeup_days := Some [] |} ]
  = {| weekend_days := Some [5; 6];
       holidays := Some ["2024-07-04"; "2024-12-25"; "2024-12-26"];
       makeup_days := Some [] |}.
Proof. vm_compute. reflexivity. Qed.

End Examples.


(** * Further properties *)

(** ** Counting *)

Lemma business_days_in_le_span W H M s e :
  business_days_in s e W H M <= Z.max 0 (e - s).
Proof.
  unfold business_days_in.
  pose proof (length_filter
    (fun d => is_business_day d W H M = true) (seqZ (s + 1) (e - s))) as Hlen.
  rewrite length_seqZ in Hlen. lia.
Qed.

Lemma business_days_in_split W H M a b c :
  a <= b <= c ->
  business_days_in a c W H M = business_days_in a b W H M + business_days_in b c W H M.
Proof.
  intros Habc. unfold business_days_in.
  replace (c - a) with ((b - a) + (c - b)) by lia.
  rewrite seqZ_app by lia. rewrite list.filter_app, length_app.
  replace (a + 1 + (b - a)) with (b + 1) by lia. lia.
Qed.

Lemma business_days_in_last W H M s e :
  s < e ->
  business_days_in s e W H M = business_days_in s (e - 1) W H M + bd_weight e W H M.
Proof.
  intros Hlt. rewrite (business_days_in_split W H M s (e - 1) e) by lia.
  rewrite (business_days_in_step W H M (e - 1) e) by lia.
  rewrite (business_days_in_empty W H M (e - 1 + 1) e) by lia.
  replace (e - 1 + 1) with e by lia. lia.
Qed.

Lemma filter_length_mono {A} (P Q : A -> Prop)
    `{forall x, Decision (P x)} `{forall x, Decision (Q x)} (l : list A) :
  (forall x, P x -> Q x) -> (length (filter P l) <= length (filter Q l))%nat.
Proof.
  intros HPQ. induction l as [| x l IH]; [done |].
  rewrite !filter_cons.
  destruct (decide (P x)) as [HP | HP].
  - rewrite decide_True by auto. simpl. lia.
  - destruct (decide (Q x)); simpl; lia.
Qed.

Lemma business_days_in_mono W H M W' H' M' s e :
  (forall d, is_business_day d W' H' M' = true -> is_business_day d W H M = true) ->
  business_days_in s e W' H' M' <= business_days_in s e W H M.
Proof.
  intros Himp. unfold business_days_in.
  apply inj_le. by apply filter_length_mono.
Qed.

(** X1. On a range that ends before the last day of the calendar,
    [calculate_days_between] returns a count between 0 and the number of
    days of the range. *)
Theorem calculate_days_between_bounds (fuel : nat) (start_date end_date : Z)
    (W H M : gset Z) :
  valid start_date -> start_date < end_date < MAXORD ->
  (Z.to_nat (end_date - start_date) <= fuel)%nat ->
  exists c, calculate_days_between fuel start_date end_date W H M = Some (Return c)
    /\ 0 <= c <= end_date - start_date.
Proof.
  intros Hvalid Hrange Hfuel. eexists. split.
  - by apply calculate_days_between_count.
  - pose proof (business_days_in_nonneg W H M start_date end_date).
    pose proof (business_days_in_le_span W H M start_date end_date). lia.
Qed.

Lemma calculate_days_between_bounds_witness :
  exists c, calculate_days_between 7 (Iso.date "2024-10-14") (Iso.date "2024-10-21")
              {[5; 6]} ∅ ∅ = Some (Return c)
    /\ 0 <= c <= Iso.date "2024-10-21" - Iso.date "2024-10-14".
Proof.
  apply calculate_days_between_bounds.
  - vm_compute. split; discriminate.
  - vm_compute. split; reflexivity.
  - vm_compute. lia.
Defined.

(** X2. Counts add up over adjacent ranges: the count of [(a, c]] is
    the count of [(a, b]] plus the count of [(b, c]]. *)
Theorem calculate_days_between_additive (fuel : nat) (a b c : Z) (W H M : gset Z) :
  valid a -> a < b < c -> c < MAXORD ->
  (Z.to_nat (c - a) <= fuel)%nat ->
  exists n1 n2,
    calculate_days_between fuel a b W H M = Some (Return n1)
    /\ calculate_days_between fuel b c W H M = Some (Return n2)
    /\ calculate_days_between fuel a c W H M = Some (Return (n1 + n2)).
Proof.
  intros Hvalid Habc Hmax Hfuel.
  exists (business_days_in a b W H M), (business_days_in b c W H M).
  rewrite !calculate_days_between_count by dates.
  by rewrite (business_days_in_split W H M a b c) by lia.
Qed.

Lemma calculate_days_between_additive_witness :
  exists n1 n2,
    calculate_days_between 7 (Iso.date "2024-10-14") (Iso.date "2024-10-18")
      {[5; 6]} ∅ ∅ = Some (Return n1)
    /\ calculate_days_between 7 (Iso.date "2024-10-18") (Iso.date "2024-10-21")
         {[5; 6]} ∅ ∅ = Some (Return n2)
    /\ calculate_days_between 7 (Iso.date "2024-10-14") (Iso.date "2024-10-21")
         {[5; 6]} ∅ ∅ = Some (Return (n1 + n2)).
Proof.
  apply calculate_days_between_additive.
  - vm_compute. split; discriminate.
  - vm_compute. split; reflexivity.
  - vm_compute. reflexivity.
  - vm_compute. lia.
Defined.

(** X3. [calculate_days_between] itself does not reject a range whose
    end is not after its start: it returns 0 without entering its loop,
    unless the start is the last day of the calendar, where computing
    the first date to test already raises [OverflowError]. *)
Theorem calculate_days_between_degenerate (fuel : nat) (start_date end_date : Z)
    (W H M : gset Z) :
  valid start_date -> end_date <= start_date ->
  calculate_days_between fuel start_date end_date W H M
  = if start_date =? MAXORD then Some (Raise OverflowError) else Some (Return 0).
Proof.
  intros Hvalid Hle. unfold calculate_days_between.
  destruct (Z.eqb_spec start_date MAXORD) as [-> | Hne].
  - by rewrite add_days_overflow.
  - rewrite add_days_next by dates.
    destruct fuel; simpl; by destruct (Z.leb_spec (start_date + 1) end_date); [lia |].
Qed.

Lemma calculate_days_between_degenerate_witness :
  calculate_days_between 0 (Iso.date "2024-10-16") (Iso.date "2024-10-14") {[5; 6]} ∅ ∅
  = Some (Return 0).
Proof.
  apply (calculate_days_between_degenerate 0 (Iso.date "2024-10-16")
           (Iso.date "2024-10-14")).
  - vm_compute. split; discriminate.
  - vm_compute. discriminate.
Defined.

(** X4. More weekend days and holidays and fewer makeup days never
    raise the count of a range. *)
Theorem calculate_days_between_monotone (fuel : nat) (start_date end_date : Z)
    (W H M W' H' M' : gset Z) :
  W ⊆ W' -> H ⊆ H' -> M' ⊆ M ->
  valid start_date -> start_date < end_date < MAXORD ->
  (Z.to_nat (end_date - start_date) <= fuel)%nat ->
  exists c c',
    calculate_days_between fuel start_date end_date W H M = Some (Return c)
    /\ calculate_days_between fuel start_date end_date W' H' M' = Some (Return c')
    /\ c' <= c.
Proof.
  intros HW HH HM Hvalid Hrange Hfuel.
  eexists _, _. rewrite !calculate_days_between_count by done.
  split; [done |]. split; [done |].
  apply business_days_in_mono. intros d. unfold is_business_day.
  destruct (decide (d ∈ M')) as [Hm' | Hm'].
  - intros _. by rewrite (bool_decide_eq_true_2 (d ∈ M)) by auto.
  - rewrite (bool_decide_eq_false_2 _ Hm').
    destruct (bool_decide (d ∈ M)); [done |].
    destruct (decide (weekday d ∈ W')) as [Hw' | Hw'];
      [by rewrite (bool_decide_eq_true_2 _ Hw') |].
    destruct (decide (d ∈ H')) as [Hh' | Hh'].
    { rewrite (bool_decide_eq_true_2 _ Hh'). by rewrite andb_false_r. }
    intros _.
    rewrite (bool_decide_eq_false_2 (weekday d ∈ W)) by auto.
    by rewrite (bool_decide_eq_false_2 (d ∈ H)) by auto.
Qed.

Lemma calculate_days_between_monotone_witness :
  exists c c',
    calculate_days_between 7 (Iso.date "2024-10-14") (Iso.date "2024-10-21")
      {[5; 6]} ∅ ∅ = Some (Return c)
    /\ calculate_days_between 7 (Iso.date "2024-10-14") (Iso.date "2024-10-21")
         {[5; 6]} {[Iso.date "2024-10-16"]} ∅ = Some (Return c')
    /\ c' <= c.
Proof.
  apply calculate_days_between_monotone.
  - done.
  - apply empty_subseteq.
  - done.
  - vm_compute. split; discriminate.
  - vm_compute. split; reflexivity.
  - vm_compute. lia.
Defined.

Lemma weekday_range d : 0 <= weekday d <= 6.
Proof. unfold weekday. pose proof (Z.mod_pos_bound (d + 6) 7). lia. Qed.

Lemma weekday_shift s k : weekday (s + k) = (s mod 7 + (k + 6)) mod 7.
Proof.
  unfold weekday. rewrite Zplus_mod_idemp_l. f_equal. lia.
Qed.

Lemma is_business_day_standard d :
  is_business_day d {[5; 6]} ∅ ∅ = negb ((weekday d =? 5) || (weekday d =? 6)).
Proof.
  unfold is_business_day.
  rewrite (bool_decide_eq_false_2 (d ∈ (∅ : gset Z))) by apply not_elem_of_empty.
  rewrite andb_true_r. f_equal.
  destruct (Z.eqb_spec (weekday d) 5) as [-> | H5].
  - apply bool_decide_eq_true_2, elem_of_union. left. by apply elem_of_singleton.
  - destruct (Z.eqb_spec (weekday d) 6) as [-> | H6].
    + apply bool_decide_eq_true_2, elem_of_union. right. by apply elem_of_singleton.
    + apply bool_decide_eq_false_2. rewrite elem_of_union, !elem_of_singleton. lia.
Qed.

(** X5. On the standard calendar (weekend Saturday and Sunday, no
    holidays, no makeup days) [calculate_days_between] over seven
    consecutive days of the calendar returns 5, except when the seventh
    day is 9999-12-31: there it raises [OverflowError]. *)
Theorem calculate_days_between_standard_week (fuel : nat) (start_date : Z) :
  valid start_date -> start_date + 7 <= MAXORD -> (7 <= fuel)%nat ->
  calculate_days_between fuel start_date (start_date + 7) {[5; 6]} ∅ ∅
  = if start_date + 7 =? MAXORD then Some (Raise OverflowError) else Some (Return 5).
Proof.
  intros Hvalid Hmax Hfuel.
  destruct (Z.eqb_spec (start_date + 7) MAXORD) as [Hlast | Hnot].
  { rewrite Hlast. apply calculate_days_between_last_day; [done | lia | lia]. }
  rewrite calculate_days_between_count by (try done; lia).
  do 2 f_equal.
  do 7 (rewrite business_days_in_step by lia).
  rewrite business_days_in_empty by lia.
  unfold bd_weight. rewrite !is_business_day_standard.
  rewrite <- !Z.add_assoc. rewrite !weekday_shift.
  pose proof (Z.mod_pos_bound start_date 7 ltac:(lia)) as Hb.
  assert (Hcases : start_date mod 7 = 0 \/ start_date mod 7 = 1 \/ start_date mod 7 = 2
            \/ start_date mod 7 = 3 \/ start_date mod 7 = 4 \/ start_date mod 7 = 5
            \/ start_date mod 7 = 6) by lia.
  destruct Hcases as [-> | [-> | [-> | [-> | [-> | [-> | ->]]]]]]; reflexivity.
Qed.

Lemma calculate_days_between_standard_week_witness :
  calculate_days_between 7 (Iso.date "2024-10-16") (Iso.date "2024-10-16" + 7)
    {[5; 6]} ∅ ∅ = Some (Return 5)
  /\ calculate_days_between 7 (Iso.date "9999-12-24") (Iso.date "9999-12-24" + 7)
       {[5; 6]} ∅ ∅ = Some (Raise OverflowError).
Proof.
  split.
  - apply (calculate_days_between_standard_week 7 (Iso.date "2024-10-16")).
    + vm_compute. split; discriminate.
    + vm_compute. discriminate.
    + lia.
  - apply (calculate_days_between_standard_week 7 (Iso.date "9999-12-24")).
    + vm_compute. split; discriminate.
    + vm_compute. discriminate.
    + lia.
Defined.

(** X6. Weekend day numbers outside 0..6 have no effect: a rule set
    whose weekend numbers are all out of range classifies every date as
    the rule set without weekend days does. *)
Theorem is_business_day_weekend_out_of_range (d : Z) (W H M : gset Z) :
  (forall x, x ∈ W -> x < 0 \/ 6 < x) ->
  is_business_day d W H M = is_business_day d ∅ H M.
Proof.
  intros Hout. unfold is_business_day.
  rewrite (bool_decide_eq_false_2 (weekday d ∈ W)).
  - by rewrite (bool_decide_eq_false_2 (weekday d ∈ (∅ : gset Z)))
      by apply not_elem_of_empty.
  - intros Hin. pose proof (weekday_range d). destruct (Hout _ Hin); lia.
Qed.

Lemma is_business_day_weekend_out_of_range_witness :
  is_business_day (Iso.date "2024-10-19") {[7]} ∅ ∅
  = is_business_day (Iso.date "2024-10-19") ∅ ∅ ∅.
Proof.
  apply is_business_day_weekend_out_of_range.
  intros x Hx. apply elem_of_singleton in Hx as ->. lia.
Defined.

(** ** Projection *)

(** What a returned date of the projection loop satisfies, whatever the
    fuel. *)
Lemma future_date_loop_returns W H M fuel : forall cur counted n d,
  MINORD - 1 <= cur <= MAXORD ->
  future_date_loop fuel cur counted n W H M = Some (Return d) ->
  cur <= d <= MAXORD
  /\ business_days_in cur d W H M = Z.max 0 (n - counted)
  /\ (n <= counted -> d = cur)
  /\ (counted < n -> cur < d /\ is_business_day d W H M = true).
Proof.
  induction fuel as [| fuel IH]; intros cur counted n d Hcur; simpl.
  - destruct (Z.ltb_spec counted n) as [Hlt | Hge]; [done |].
    intros [= <-]. rewrite business_days_in_empty by lia. repeat split; lia.
  - destruct (Z.ltb_spec counted n) as [Hlt | Hge].
    + destruct (decide (cur = MAXORD)) as [-> | Hne].
      { by rewrite add_days_overflow by lia. }
      rewrite add_days_next by lia. intros Hloop.
      apply IH in Hloop as (Hd & Hcount & Hstop & Hgo); [| dates].
      split; [lia |].
      rewrite (business_days_in_step W H M cur d) by lia.
      unfold bd_weight. rewrite Hcount.
      destruct (is_business_day (cur + 1) W H M) eqn:Hbd.
      * split; [lia |]. split; [lia |]. intros _. split; [lia |].
        destruct (decide (counted + 1 < n)) as [Hmore | Hdone]; [by apply Hgo |].
        by rewrite Hstop by lia.
      * split; [lia |]. split; [lia |]. intros _.
        destruct Hgo as [? ?]; [done |]. split; [lia | done].
    + intros [= <-]. rewrite business_days_in_empty by lia. repeat split; lia.
Qed.

(** X7. [get_future_business_date] itself does not reject a negative
    count: for every count that is not positive it returns the start
    date, whatever the fuel. *)
Theorem get_future_business_date_nonpositive (fuel : nat) (start_date n : Z)
    (W H M : gset Z) :
  n <= 0 -> get_future_business_date fuel start_date n W H M = Some (Return start_date).
Proof.
  intros Hn. unfold get_future_business_date.
  destruct fuel; simpl; by destruct (Z.ltb_spec 0 n); [lia |].
Qed.

Lemma get_future_business_date_nonpositive_witness :
  get_future_business_date 0 (Iso.date "2024-10-14") (-3) {[5; 6]} ∅ ∅
  = Some (Return (Iso.date "2024-10-14")).
Proof. apply get_future_business_date_nonpositive. lia. Defined.

Lemma business_days_in_ends_on_business_day W H M s e :
  s < e -> is_business_day e W H M = true -> 1 <= business_days_in s e W H M.
Proof.
  intros Hlt Hbd. rewrite business_days_in_last by done.
  unfold bd_weight. rewrite Hbd.
  pose proof (business_days_in_nonneg W H M s (e - 1)). lia.
Qed.

(** Two business days after [s] that close the same count are the same
    date. *)
Lemma target_unique W H M s d d' :
  s < d -> s < d' ->
  is_business_day d W H M = true -> is_business_day d' W H M = true ->
  business_days_in s d W H M = business_days_in s d' W H M -> d = d'.
Proof.
  intros Hd Hd' Hbd Hbd' Heq.
  destruct (Z.lt_trichotomy d d') as [Hlt | [-> | Hgt]]; [| done |].
  - rewrite (business_days_in_split W H M s d d') in Heq by lia.
    pose proof (business_days_in_ends_on_business_day W H M d d' Hlt Hbd'). lia.
  - rewrite (business_days_in_split W H M s d' d) in Heq by lia.
    pose proof (business_days_in_ends_on_business_day W H M d' d Hgt Hbd). lia.
Qed.

(** X8. Counting undoes projecting: when [get_future_business_date]
    returns a date [d] for a count [n >= 0], [calculate_days_between]
    from the start date to [d] returns [n]. *)
Theorem projection_then_count (fuel fuel' : nat) (start_date n d : Z) (W H M : gset Z) :
  valid start_date -> 0 <= n ->
  get_future_business_date fuel start_date n W H M = Some (Return d) ->
  d < MAXORD -> (Z.to_nat (d - start_date) <= fuel')%nat ->
  calculate_days_between fuel' start_date d W H M = Some (Return n).
Proof.
  intros Hvalid Hn Hret Hmax Hfuel. unfold get_future_business_date in Hret.
  apply future_date_loop_returns in Hret as (Hd & Hcount & Hstop & Hgo); [| dates].
  rewrite Z.sub_0_r in Hcount.
  destruct (decide (n = 0)) as [-> | Hpos].
  - rewrite Hstop by lia. rewrite Hstop in Hmax by lia.
    rewrite calculate_days_between_degenerate by (done || lia).
    destruct (Z.eqb_spec start_date MAXORD); [lia | done].
  - destruct Hgo as [Hlt _]; [lia |].
    rewrite calculate_days_between_count by (done || lia).
    rewrite Hcount. do 2 f_equal. lia.
Qed.

Lemma projection_then_count_witness :
  calculate_days_between 10 (Iso.date "2024-10-17") (Iso.date "2024-10-23") {[5; 6]} ∅ ∅
  = Some (Return 4).
Proof.
  apply (projection_then_count 10 10 (Iso.date "2024-10-17") 4 (Iso.date "2024-10-23")).
  - vm_compute. split; discriminate.
  - lia.
  - vm_compute. reflexivity.
  - vm_compute. reflexivity.
  - vm_compute. lia.
Defined.

(** X9. The date [get_future_business_date] returns for a count
    [n >= 1] is the first one that reaches the count: it lies at least
    [n] days after the start, and the count up to any earlier date is
    below [n]. *)
Theorem projection_minimal (fuel : nat) (start_date n d : Z) (W H M : gset Z) :
  valid start_date -> 1 <= n ->
  get_future_business_date fuel start_date n W H M = Some (Return d) ->
  start_date + n <= d /\
  forall (fuel' : nat) (d' : Z),
    start_date < d' < d -> (Z.to_nat (d' - start_date) <= fuel')%nat ->
    exists c, calculate_days_between fuel' start_date d' W H M = Some (Return c) /\ c < n.
Proof.
  intros Hvalid Hn Hret. unfold get_future_business_date in Hret.
  apply future_date_loop_returns in Hret as (Hd & Hcount & _ & Hgo); [| dates].
  rewrite Z.sub_0_r in Hcount. destruct Hgo as [Hlt Hbd]; [lia |].
  split.
  - pose proof (business_days_in_le_span W H M start_date d). lia.
  - intros fuel' d' Hd' Hfuel. eexists. split.
    + apply calculate_days_between_count; [done | lia | done].
    + rewrite (business_days_in_split W H M start_date d' d) in Hcount by lia.
      pose proof (business_days_in_ends_on_business_day W H M d' d ltac:(lia) Hbd). lia.
Qed.

Lemma projection_minimal_witness :
  Iso.date "2024-10-17" + 4 <= Iso.date "2024-10-23" /\
  forall (fuel' : nat) (d' : Z),
    Iso.date "2024-10-17" < d' < Iso.date "2024-10-23" ->
    (Z.to_nat (d' - Iso.date "2024-10-17") <= fuel')%nat ->
    exists c, calculate_days_between fuel' (Iso.date "2024-10-17") d' {[5; 6]} ∅ ∅
                = Some (Return c) /\ c < 4.
Proof.
  apply (projection_minimal 10).
  - vm_compute. split; discriminate.
  - lia.
  - vm_compute. reflexivity.
Defined.

(** X10. Projections compose: projecting [a] business days and then
    [b] more from the date reached gives the date that projecting
    [a + b] business days from the start gives. *)
Theorem projection_compose (fuel1 fuel2 fuel : nat) (start_date a b d1 d2 : Z)
    (W H M : gset Z) :
  valid start_date -> 0 <= a -> 0 <= b ->
  get_future_business_date fuel1 start_date a W H M = Some (Return d1) ->
  get_future_business_date fuel2 d1 b W H M = Some (Return d2) ->
  (days_left start_date < fuel)%nat ->
  get_future_business_date fuel start_date (a + b) W H M = Some (Return d2).
Proof.
  intros Hvalid Ha Hb Hret1 Hret2 Hfuel. unfold get_future_business_date in *.
  apply future_date_loop_returns in Hret1 as (Hd1 & Hcount1 & Hstop1 & Hgo1); [| dates].
  apply future_date_loop_returns in Hret2 as (Hd2 & Hcount2 & Hstop2 & Hgo2); [| dates].
  rewrite Z.sub_0_r in Hcount1, Hcount2.
  assert (Hsum : business_days_in start_date d2 W H M = a + b).
  { rewrite (business_days_in_split W H M start_date d1 d2) by lia. lia. }
  destruct (future_date_loop_spec W H M fuel start_date 0 (a + b)) as [Hret _];
    [dates | done |].
  rewrite Z.sub_0_r in Hret.
  destruct Hret as (d & Heq & Hd & Hcount & Hstop & Hgo).
  { rewrite (business_days_in_split W H M start_date d2 MAXORD) by lia.
    pose proof (business_days_in_nonneg W H M d2 MAXORD). lia. }
  rewrite Heq. do 2 f_equal.
  destruct (decide (a + b = 0)) as [Hzero | Hpos].
  - rewrite Hstop by lia. rewrite Hstop2 by lia. rewrite Hstop1 by lia. done.
  - destruct Hgo as [Hlt Hbd]; [lia |].
    assert (Hlast : start_date < d2 /\ is_business_day d2 W H M = true).
    { destruct (decide (b = 0)) as [-> | Hb0].
      - rewrite Hstop2 by lia. apply Hgo1. lia.
      - destruct Hgo2 as [? ?]; [lia |]. split; [lia | done]. }
    apply (target_unique W H M start_date); try tauto; lia.
Qed.

Lemma projection_compose_witness :
  get_future_business_date 20 (Iso.date "9999-12-13") (3 + 4) {[5; 6]} ∅ ∅
  = Some (Return (Iso.date "9999-12-22")).
Proof.
  apply (projection_compose 10 10 20 (Iso.date "9999-12-13") 3 4 (Iso.date "9999-12-16")).
  - vm_compute. split; discriminate.
  - lia.
  - lia.
  - vm_compute. reflexivity.
  - vm_compute. reflexivity.
  - vm_compute. lia.
Defined.

(** ** Request evaluation *)

Lemma future_date_loop_raise W H M fuel : forall cur counted n e,
  future_date_loop fuel cur counted n W H M = Some (Raise e) -> e = OverflowError.
Proof.
  induction fuel as [| fuel IH]; intros cur counted n e; simpl.
  - destruct (counted <? n); done.
  - destruct (counted <? n); [| done].
    destruct (add_days cur 1) as [cur' | e'] eqn:Hadd.
    + apply IH.
    + intros [= <-]. by apply add_days_raise in Hadd.
Qed.

(** [perform_calculation] written with the three sets of the rule set. *)
Lemma perform_calculation_sets `{DateCodec} fuel operation start_date rules end_date n
    (start_dt : Z) :
  strptime start_date = Some start_dt ->
  perform_calculation fuel operation start_date rules end_date n
  = if String.eqb operation "days_between" then
      match end_date with
      | None | Some EmptyString => Some (Raise (ValueError (MissingField EndDate)))
      | Some end_str =>
          match strptime end_str with
          | None => Some (Raise (ValueError (InvalidDateFormat EndDate)))
          | Some end_dt =>
              if end_dt <=? start_dt then Some (Raise (ValueError InvalidRange))
              else
                match calculate_days_between fuel start_dt end_dt
                        (weekend_set rules) (holiday_set rules) (makeup_set rules) with
                | None => None
                | Some (Raise e) => Some (Raise e)
                | Some (Return result_count) =>
                    Some (Return (DaysBetween result_count start_date end_str))
                end
          end
      end
    else if String.eqb operation "get_future_date" then
      match n with
      | None => Some (Raise (ValueError (MissingField BusinessDays)))
      | Some n =>
          if n <? 0 then Some (Raise (ValueError InvalidCount))
          else
            match get_future_business_date fuel start_dt n
                    (weekend_set rules) (holiday_set rules) (makeup_set rules) with
            | None => None
            | Some (Raise e) => Some (Raise e)
            | Some (Return future_dt) =>
                Some (Return (FutureDate (strftime future_dt) start_date n))
            end
      end
    else Some (Raise (ValueError InvalidOperation)).
Proof. intros Hs. unfold perform_calculation. by rewrite Hs. Qed.

(** X11. Once the start date parses, [perform_calculation] fails with
    [InvalidOperation] exactly when the operation is neither
    [days_between] nor [get_future_date]; no other path, and no date
    arithmetic, produces that error. *)
Theorem perform_calculation_invalid_operation `{DateCodec} (fuel : nat)
    (operation start_date : string) (rules : calendar_rules)
    (end_date : option string) (n : option Z) (start_dt : Z) :
  strptime start_date = Some start_dt ->
  perform_calculation fuel operation start_date rules end_date n
    = Some (Raise (ValueError InvalidOperation))
  <-> operation <> "days_between"%string /\ operation <> "get_future_date"%string.
Proof.
  intros Hs. rewrite (perform_calculation_sets _ _ _ _ _ _ start_dt Hs).
  destruct (String.eqb_spec operation "days_between") as [-> | Hne1].
  - split; [| by intros [? _]].
    destruct end_date as [[| c end_str] |]; [done | | done].
    destruct (strptime (String c end_str)) as [end_dt |]; [| done].
    destruct (end_dt <=? start_dt); [done |].
    unfold calculate_days_between.
    destruct (add_days start_dt 1) as [cur | e] eqn:Hadd.
    + destruct (days_between_loop _ _ _ _ _ _ _) as [[? | e] |] eqn:Hloop; try done.
      by apply days_between_loop_raise in Hloop as ->.
    + by apply add_days_raise in Hadd as ->.
  - destruct (String.eqb_spec operation "get_future_date") as [-> | Hne2].
    + split; [| by intros [_ ?]].
      destruct n as [n |]; [| done]. destruct (n <? 0); [done |].
      unfold get_future_business_date.
      destruct (future_date_loop _ _ _ _ _ _ _) as [[? | e] |] eqn:Hloop; try done.
      by apply future_date_loop_raise in Hloop as ->.
    + done.
Qed.

Lemma perform_calculation_invalid_operation_witness :
  @perform_calculation Iso.codec 0 "days_since" "2024-10-14" Sample.standard None None
  = Some (Raise (ValueError InvalidOperation)).
Proof.
  apply (proj2 (@perform_calculation_invalid_operation Iso.codec 0 "days_since"
                  "2024-10-14" Sample.standard None None (Iso.date "2024-10-14")
                  ltac:(reflexivity))).
  split; discriminate.
Defined.

(** X12. For two valid dates in order and enough fuel, the operation
    [days_between] ends on [OverflowError] exactly when the end date is
    the last day of the calendar, 9999-12-31. *)
Theorem days_between_overflow_iff `{DateCodec} (fuel : nat)
    (start_date end_str : string) (rules : calendar_rules) (n : option Z)
    (start_dt end_dt : Z) :
  strptime start_date = Some start_dt ->
  strptime end_str = Some end_dt ->
  end_str <> EmptyString ->
  valid start_dt -> valid end_dt -> start_dt < end_dt ->
  (Z.to_nat (end_dt - start_dt) <= fuel)%nat ->
  perform_calculation fuel "days_between" start_date rules (Some end_str) n
    = Some (Raise OverflowError)
  <-> end_dt = MAXORD.
Proof.
  intros Hs He Hne Hvs Hve Hlt Hfuel. split.
  - intros Hraise. destruct (decide (end_dt = MAXORD)) as [| Hnot]; [done |].
    rewrite (perform_calculation_days_between fuel start_date end_str rules n
               start_dt end_dt) in Hraise; [done | done.. | dates | done].
  - intros ->. by apply (perform_calculation_last_day _ _ _ _ _ start_dt).
Qed.

Lemma days_between_overflow_iff_witness :
  @perform_calculation Iso.codec 5 "days_between" "9999-12-28" Sample.standard
    (Some "9999-12-31"%string) None
  = Some (Raise OverflowError).
Proof.
  apply (proj2 (@days_between_overflow_iff Iso.codec 5 "9999-12-28" "9999-12-31"
                  Sample.standard None (Iso.date "9999-12-28") (Iso.date "9999-12-31")
                  ltac:(reflexivity) ltac:(reflexivity) ltac:(discriminate)
                  ltac:(vm_compute; split; discriminate)
                  ltac:(vm_compute; split; discriminate)
                  ltac:(reflexivity) ltac:(vm_compute; lia))).
  reflexivity.
Defined.

Lemma parse_dates_ext `{DateCodec} (l l' : list string) :
  (forall s, s ∈ l <-> s ∈ l') -> parse_dates l ∅ = parse_dates l' ∅.
Proof.
  intros Hext. apply set_eq. intros d. rewrite !elem_of_parse_dates.
  split; (intros [? | (s & Hs & ?)]; [by left | right; exists s; split; [by apply Hext | done]]).
Qed.

(** X13. [perform_calculation] reads the three lists of a rule set as
    sets: two rule sets whose lists have the same members (in any order,
    with any repetition, a missing key counting as an empty list) give
    the same result. *)
Theorem perform_calculation_reads_sets `{DateCodec} (fuel : nat)
    (operation start_date : string) (rules rules' : calendar_rules)
    (end_date : option string) (n : option Z) :
  (forall x, x ∈ get_list (weekend_days rules) <-> x ∈ get_list (weekend_days rules')) ->
  (forall s, s ∈ get_list (holidays rules) <-> s ∈ get_list (holidays rules')) ->
  (forall s, s ∈ get_list (makeup_days rules) <-> s ∈ get_list (makeup_days rules')) ->
  perform_calculation fuel operation start_date rules end_date n
  = perform_calculation fuel operation start_date rules' end_date n.
Proof.
  intros Hw Hh Hm. unfold perform_calculation.
  rewrite (parse_dates_ext _ _ Hh), (parse_dates_ext _ _ Hm).
  replace (list_to_set (get_list (weekend_days rules)) : gset Z)
    with (list_to_set (get_list (weekend_days rules')) : gset Z); [done |].
  apply set_eq. intros x. rewrite !elem_of_list_to_set. by rewrite Hw.
Qed.

Lemma perform_calculation_reads_sets_witness :
  @perform_calculation Iso.codec 10 "days_between" "2024-10-14"
    {| weekend_days := Some [6; 5; 5]; holidays := Some ["2024-10-16"; "2024-10-16"];
       makeup_days := None |}
    (Some "2024-10-18"%string) None
  = @perform_calculation Iso.codec 10 "days_between" "2024-10-14"
      {| weekend_days := Some [5; 6]; holidays := Some ["2024-10-16"];
         makeup_days := Some [] |}
      (Some "2024-10-18"%string) None.
Proof.
  apply @perform_calculation_reads_sets; simpl; intros x;
    rewrite ?elem_of_cons, ?elem_of_nil; tauto.
Defined.

(** ** More on merging *)

#[global] Instance str_le_antisymm : AntiSymm (=) str_le.
Proof.
  intros a b. rewrite !str_le_lt_eq. intros [Hab | ->] [Hba | Heq]; try done.
  exfalso. exact (irreflexivity str_lt a (transitivity Hab Hba)).
Qed.

Lemma strict_sorted_nodup {A} (lt : relation A) `{!Irreflexive lt} (l : list A) :
  StronglySorted lt l -> NoDup l.
Proof.
  induction 1 as [| a l Hs IH Hall]; [constructor |].
  constructor; [| done]. intros Hin.
  rewrite Forall_forall in Hall. apply (irreflexivity lt a). apply Hall.
  by apply list_elem_of_In.
Qed.

Lemma strict_sorted_weaken {A} (lt le : relation A) (l : list A) :
  (forall a b, lt a b -> le a b) -> StronglySorted lt l -> StronglySorted le l.
Proof.
  intros Hsub. induction 1 as [| a l Hs IH Hall]; constructor; [done |].
  eapply Forall_impl; [| exact Hall]. auto.
Qed.

(** Sorting the set of a sorted duplicate-free list gives the list back. *)
Lemma sorted_strs_of_sorted (l : list string) :
  StronglySorted str_lt l -> sorted_strs (list_to_set l) = l.
Proof.
  intros Hs. apply (StronglySorted_unique str_le).
  - apply StronglySorted_merge_sort; apply _.
  - apply (strict_sorted_weaken str_lt); [| done].
    intros a b Hab. apply str_le_lt_eq. by left.
  - unfold sorted_strs. rewrite merge_sort_Permutation.
    apply elements_list_to_set. by apply (strict_sorted_nodup str_lt).
Qed.

Lemma sorted_ints_of_sorted (l : list Z) :
  StronglySorted Z.lt l -> sorted_ints (list_to_set l) = l.
Proof.
  intros Hs. apply (StronglySorted_unique Z.le).
  - apply StronglySorted_merge_sort; apply _.
  - apply (strict_sorted_weaken Z.lt); [| done]. intros a b. lia.
  - unfold sorted_ints. rewrite merge_sort_Permutation.
    apply elements_list_to_set. by apply (strict_sorted_nodup Z.lt).
Qed.

(** Two lists of two or more rule sets with the same members field by
    field merge to the same rule set. *)
Lemma merge_calendar_rules_ext (l l' : list calendar_rules) :
  (2 <= length l)%nat -> (2 <= length l')%nat ->
  (forall x, (exists r, r ∈ l /\ x ∈ get_list (weekend_days r))
             <-> (exists r, r ∈ l' /\ x ∈ get_list (weekend_days r))) ->
  (forall x, (exists r, r ∈ l /\ x ∈ get_list (holidays r))
             <-> (exists r, r ∈ l' /\ x ∈ get_list (holidays r))) ->
  (forall x, (exists r, r ∈ l /\ x ∈ get_list (makeup_days r))
             <-> (exists r, r ∈ l' /\ x ∈ get_list (makeup_days r))) ->
  merge_calendar_rules l = merge_calendar_rules l'.
Proof.
  intros Hl Hl' Hw Hh Hm. rewrite !merge_calendar_rules_many by done.
  assert (Hempty : forall (A : Type) `{Countable A} (x : A) (P : Prop),
             x ∈ (∅ : gset A) \/ P <-> P).
  { intros A ? ? x P. split; [| by right]. intros [Hx | ?]; [| done].
    by apply not_elem_of_empty in Hx. }
  f_equal; f_equal; f_equal; apply set_eq; intros x.
  - by rewrite !merge_fold_weekend, !Hempty.
  - by rewrite !merge_fold_holidays, !Hempty.
  - by rewrite !merge_fold_makeup, !Hempty.
Qed.

(** X14. The merge does not depend on the order of the rule sets. *)
Theorem merge_calendar_rules_permutation (l l' : list calendar_rules) :
  l ≡ₚ l' -> merge_calendar_rules l = merge_calendar_rules l'.
Proof.
  intros Hperm. pose proof (Permutation_length Hperm) as Hlen.
  destruct l as [| a [| b l]].
  - by apply Permutation_nil_l in Hperm as ->.
  - by apply Permutation_singleton_l in Hperm as ->.
  - apply merge_calendar_rules_ext; [simpl; lia | rewrite <- Hlen; simpl; lia | ..];
      intros x; by setoid_rewrite Hperm.
Qed.

Lemma merge_calendar_rules_permutation_witness :
  merge_calendar_rules
    [ {| weekend_days := Some [5; 6]; holidays := Some ["2024-07-04"]; makeup_days := None |};
      {| weekend_days := Some [4; 5]; holidays := Some ["2024-12-26"]; makeup_days := None |} ]
  = merge_calendar_rules
    [ {| weekend_days := Some [4; 5]; holidays := Some ["2024-12-26"]; makeup_days := None |};
      {| weekend_days := Some [5; 6]; holidays := Some ["2024-07-04"]; makeup_days := None |} ].
Proof. apply merge_calendar_rules_permutation. apply Permutation_swap. Defined.

(** The members of the three fields of a merge, for a list of any
    length. *)
Lemma merge_calendar_rules_members (l : list calendar_rules) :
  (forall x, x ∈ get_list (weekend_days (merge_calendar_rules l))
             <-> exists r, r ∈ l /\ x ∈ get_list (weekend_days r)) /\
  (forall x, x ∈ get_list (holidays (merge_calendar_rules l))
             <-> exists r, r ∈ l /\ x ∈ get_list (holidays r)) /\
  (forall x, x ∈ get_list (makeup_days (merge_calendar_rules l))
             <-> exists r, r ∈ l /\ x ∈ get_list (makeup_days r)).
Proof.
  assert (Hempty : forall (A : Type) `{Countable A} (x : A) (P : Prop),
             x ∈ (∅ : gset A) \/ P <-> P).
  { intros A ? ? x P. split; [| by right]. intros [Hx | ?]; [| done].
    by apply not_elem_of_empty in Hx. }
  destruct l as [| a [| b l]].
  - simpl. repeat split; try (intros Hx; by apply elem_of_nil in Hx);
      intros (r & Hr & _); by apply elem_of_nil in Hr.
  - simpl. repeat split; try (intros Hx; exists a; split; [apply list_elem_of_singleton |]; done);
      intros (r & Hr & Hx); by apply list_elem_of_singleton in Hr as ->.
  - rewrite merge_calendar_rules_many by (simpl; lia).
    cbn [weekend_days holidays makeup_days].
    split; [| split]; intros x;
      match goal with |- context [get_list (Some ?v)] =>
        change (get_list (Some v)) with v end.
    + by rewrite sorted_ints_elem, merge_fold_weekend, Hempty.
    + by rewrite sorted_strs_elem, merge_fold_holidays, Hempty.
    + by rewrite sorted_strs_elem, merge_fold_makeup, Hempty.
Qed.

(** X15. Merging in stages gives the merge of the whole: for a
    non-empty list [l1], merging the merge of [l1] with the rule sets of
    [l2] is merging [l1 ++ l2]. *)
Theorem merge_calendar_rules_nested (l1 l2 : list calendar_rules) :
  l1 <> [] ->
  merge_calendar_rules (merge_calendar_rules l1 :: l2) = merge_calendar_rules (l1 ++ l2).
Proof.
  intros Hne. destruct l1 as [| a [| b l1]]; [done | done |].
  destruct l2 as [| c l2]; [by rewrite app_nil_r |].
  destruct (merge_calendar_rules_members (a :: b :: l1)) as (Hw & Hh & Hm).
  apply merge_calendar_rules_ext; [simpl; lia | simpl; lia | ..]; intros x.
  - split.
    + intros (r & Hr & Hx). apply elem_of_cons in Hr as [-> | Hr].
      * apply Hw in Hx as (r & Hr & Hx). exists r. split; [| done].
        apply elem_of_app. by left.
      * exists r. split; [| done]. apply elem_of_app. by right.
    + intros (r & Hr & Hx). apply elem_of_app in Hr as [Hr | Hr].
      * eexists. split; [apply elem_of_cons; by left |]. apply Hw. by exists r.
      * exists r. split; [apply elem_of_cons; by right | done].
  - split.
    + intros (r & Hr & Hx). apply elem_of_cons in Hr as [-> | Hr].
      * apply Hh in Hx as (r & Hr & Hx). exists r. split; [| done].
        apply elem_of_app. by left.
      * exists r. split; [| done]. apply elem_of_app. by right.
    + intros (r & Hr & Hx). apply elem_of_app in Hr as [Hr | Hr].
      * eexists. split; [apply elem_of_cons; by left |]. apply Hh. by exists r.
      * exists r. split; [apply elem_of_cons; by right | done].
  - split.
    + intros (r & Hr & Hx). apply elem_of_cons in Hr as [-> | Hr].
      * apply Hm in Hx as (r & Hr & Hx). exists r. split; [| done].
        apply elem_of_app. by left.
      * exists r. split; [| done]. apply elem_of_app. by right.
    + intros (r & Hr & Hx). apply elem_of_app in Hr as [Hr | Hr].
      * eexists. split; [apply elem_of_cons; by left |]. apply Hm. by exists r.
      * exists r. split; [apply elem_of_cons; by right | done].
Qed.

Lemma merge_calendar_rules_nested_witness :
  merge_calendar_rules
    (merge_calendar_rules
       [ {| weekend_days := Some [5; 6]; holidays := Some ["2024-07-04"];
            makeup_days := None |};
         {| weekend_days := Some [4; 5]; holidays := None; makeup_days := None |} ]
     :: [ {| weekend_days := Some [6]; holidays := Some ["2024-12-26"];
             makeup_days := Some [] |} ])
  = merge_calendar_rules
      ([ {| weekend_days := Some [5; 6]; holidays := Some ["2024-07-04"];
            makeup_days := None |};
         {| weekend_days := Some [4; 5]; holidays := None; makeup_days := None |} ]
       ++ [ {| weekend_days := Some [6]; holidays := Some ["2024-12-26"];
               makeup_days := Some [] |} ]).
Proof. apply merge_calendar_rules_nested. discriminate. Defined.

(** X16. Merging a rule set with itself gives it back exactly when its
    three fields are present, sorted and free of duplicates; on any
    other rule set the merge of two copies differs from the rule set. *)
Theorem merge_calendar_rules_self (r : calendar_rules) :
  merge_calendar_rules [r; r] = r <-> sorted_fields r.
Proof.
  rewrite merge_calendar_rules_many by (simpl; lia). split.
  - intros <-. unfold sorted_fields. cbn [weekend_days holidays makeup_days].
    split; [| split]; eexists; (split; [reflexivity |]);
      [apply sorted_ints_strict | apply sorted_strs_strict | apply sorted_strs_strict].
  - intros ((w & Hw & Hws) & (h & Hh & Hhs) & (m & Hm & Hms)).
    destruct r as [rw rh rm]. simpl in Hw, Hh, Hm. subst rw rh rm.
    simpl. rewrite !union_empty_l_L, !union_idemp_L.
    by rewrite sorted_ints_of_sorted, !sorted_strs_of_sorted.
Qed.

Lemma merge_calendar_rules_self_witness :
  merge_calendar_rules [Sample.standard; Sample.standard] = Sample.standard.
Proof.
  apply (proj2 (merge_calendar_rules_self Sample.standard)).
  unfold sorted_fields. simpl.
  split; [| split]; eexists; (split; [reflexivity |]); repeat constructor; lia.
Defined.

Lemma elem_of_holiday_set `{DateCodec} (rules : calendar_rules) (d : Z) :
  d ∈ holiday_set rules <-> exists s, s ∈ get_list (holidays rules) /\ strptime s = Some d.
Proof.
  unfold holiday_set. rewrite elem_of_parse_dates. split; [| by right].
  intros [Hd | ?]; [| done]. by apply not_elem_of_empty in Hd.
Qed.

Lemma elem_of_makeup_set `{DateCodec} (rules : calendar_rules) (d : Z) :
  d ∈ makeup_set rules <-> exists s, s ∈ get_list (makeup_days rules) /\ strptime s = Some d.
Proof.
  unfold makeup_set. rewrite elem_of_parse_dates. split; [| by right].
  intros [Hd | ?]; [| done]. by apply not_elem_of_empty in Hd.
Qed.

(** X17. Under the merge of a list of rule sets a date is a business
    day exactly when it is a makeup day of one of them, or is neither a
    weekend day nor a holiday of any of them. *)
Theorem merged_business_day `{DateCodec} (l : list calendar_rules) (d : Z) :
  is_business_day d (weekend_set (merge_calendar_rules l))
    (holiday_set (merge_calendar_rules l)) (makeup_set (merge_calendar_rules l)) = true
  <-> (exists r, r ∈ l /\ d ∈ makeup_set r)
      \/ (forall r, r ∈ l -> (weekday d ∉ weekend_set r) /\ (d ∉ holiday_set r)).
Proof.
  destruct (merge_calendar_rules_members l) as (Hw & Hh & Hm).
  assert (HW : forall x, x ∈ weekend_set (merge_calendar_rules l)
                         <-> exists r, r ∈ l /\ x ∈ weekend_set r).
  { intros x. unfold weekend_set. rewrite elem_of_list_to_set, Hw.
    by setoid_rewrite elem_of_list_to_set. }
  assert (HH : d ∈ holiday_set (merge_calendar_rules l)
               <-> exists r, r ∈ l /\ d ∈ holiday_set r).
  { rewrite elem_of_holiday_set. setoid_rewrite elem_of_holiday_set.
    setoid_rewrite Hh. split.
    - intros (s & (r & Hr & Hs) & Hd). exists r. split; [done |]. by exists s.
    - intros (r & Hr & s & Hs & Hd). exists s. split; [| done]. by exists r. }
  assert (HM : d ∈ makeup_set (merge_calendar_rules l)
               <-> exists r, r ∈ l /\ d ∈ makeup_set r).
  { rewrite elem_of_makeup_set. setoid_rewrite elem_of_makeup_set.
    setoid_rewrite Hm. split.
    - intros (s & (r & Hr & Hs) & Hd). exists r. split; [done |]. by exists s.
    - intros (r & Hr & s & Hs & Hd). exists s. split; [| done]. by exists r. }
  unfold is_business_day.
  destruct (decide (d ∈ makeup_set (merge_calendar_rules l))) as [Hmk | Hmk].
  - rewrite (bool_decide_eq_true_2 _ Hmk). split; [| done]. intros _. left. by apply HM.
  - rewrite (bool_decide_eq_false_2 _ Hmk).
    destruct (decide (weekday d ∈ weekend_set (merge_calendar_rules l))) as [Hwk | Hwk].
    + rewrite (bool_decide_eq_true_2 _ Hwk). simpl. split; [done |].
      intros [Hex | Hall]; [by apply HM in Hex |].
      apply HW in Hwk as (r & Hr & Hin). by destruct (Hall r Hr).
    + rewrite (bool_decide_eq_false_2 _ Hwk). simpl.
      destruct (decide (d ∈ holiday_set (merge_calendar_rules l))) as [Hhd | Hhd].
      * rewrite (bool_decide_eq_true_2 _ Hhd). simpl. split; [done |].
        intros [Hex | Hall]; [by apply HM in Hex |].
        apply HH in Hhd as (r & Hr & Hin). by destruct (Hall r Hr).
      * rewrite (bool_decide_eq_false_2 _ Hhd). simpl. split; [| done].
        intros _. right. intros r Hr. split.
        -- intros Hin. apply Hwk, HW. by exists r.
        -- intros Hin. apply Hhd, HH. by exists r.
Qed.

Lemma merged_business_day_witness :
  is_business_day (Iso.date "2024-10-19")
    (weekend_set (merge_calendar_rules [Sample.standard; Sample.makeup_saturday]))
    (@holiday_set Iso.codec (merge_calendar_rules [Sample.standard; Sample.makeup_saturday]))
    (@makeup_set Iso.codec (merge_calendar_rules [Sample.standard; Sample.makeup_saturday]))
  = true.
Proof.
  apply (proj2 (@merged_business_day Iso.codec
                  [Sample.standard; Sample.makeup_saturday] (Iso.date "2024-10-19"))).
  left. exists Sample.makeup_saturday. split.
  - apply elem_of_cons. right. apply elem_of_cons. by left.
  - by_decide.
Defined.

(** ** More on resolution *)

Lemma split_dash_none (s : string) :
  split_dash s = None <-> "-"%char ∉ list_ascii_of_string s.
Proof.
  induction s as [| c s IH]; simpl.
  - split; [| done]. intros _ Hin. by apply elem_of_nil in Hin.
  - destruct (Ascii.eqb_spec c "-"%char) as [-> | Hne].
    + split; [done |]. intros Hnot. exfalso. apply Hnot. apply elem_of_cons. by left.
    + destruct (split_dash s) as [[a b] |].
      * split; [done |]. intros Hnot. exfalso.
        assert (Hs : "-"%char ∉ list_ascii_of_string s).
        { intros Hin. apply Hnot. apply elem_of_cons. by right. }
        by apply IH in Hs.
      * split; [| done]. intros _ Hin.
        apply elem_of_cons in Hin as [Heq | Hin]; [congruence |].
        by apply (proj1 IH).
Qed.

(** X18. A calendar id is split at its first dash: [split_dash] returns
    the pair [(c, s)] exactly when the id is [c], a dash and [s] with no
    dash in [c]; it returns nothing exactly when the id holds no dash. *)
Theorem split_dash_first (calendar_id : string) :
  (forall c s, split_dash calendar_id = Some (c, s)
     <-> calendar_id = c +:+ String "-"%char s /\ "-"%char ∉ list_ascii_of_string c) /\
  (split_dash calendar_id = None <-> "-"%char ∉ list_ascii_of_string calendar_id).
Proof.
  split; [| apply split_dash_none].
  induction calendar_id as [| x calendar_id IH]; intros c s.
  - simpl. split; [done |]. intros [Heq _]. by destruct c.
  - simpl. destruct (Ascii.eqb_spec x "-"%char) as [-> | Hne].
    + split.
      * intros [= <- <-]. split; [done |]. intros Hin. by apply elem_of_nil in Hin.
      * intros [Heq Hnot]. destruct c as [| y c]; simpl in Heq.
        -- by injection Heq as ->.
        -- injection Heq as <- _. exfalso. apply Hnot. apply elem_of_cons. by left.
    + destruct (split_dash calendar_id) as [[a b] |] eqn:Hsplit.
      * split.
        -- intros [= <- <-]. destruct (proj1 (IH a b) eq_refl) as [-> Hnot].
           split; [done |]. simpl. intros Hin.
           apply elem_of_cons in Hin as [Heq | Hin]; [congruence | done].
        -- intros [Heq Hnot]. destruct c as [| y c]; simpl in Heq.
           { injection Heq as -> _. done. }
           injection Heq as <- Heq.
           assert (Hc : "-"%char ∉ list_ascii_of_string c).
           { intros Hin. apply Hnot. simpl. apply elem_of_cons. by right. }
           by injection (proj2 (IH c s) (conj Heq Hc)) as -> ->.
      * split; [done |]. intros [Heq Hnot]. destruct c as [| y c]; simpl in Heq.
        { injection Heq as -> _. done. }
        injection Heq as <- Heq.
        assert (Hc : "-"%char ∉ list_ascii_of_string c).
        { intros Hin. apply Hnot. simpl. apply elem_of_cons. by right. }
        discriminate (proj2 (IH c s) (conj Heq Hc)).
Qed.

Lemma split_dash_first_witness :
  split_dash "US-NY-X" = Some ("US"%string, "NY-X"%string).
Proof.
  apply (proj1 (split_dash_first "US-NY-X")). split; [reflexivity |]. by_decide.
Defined.

(** X19. When the provider answers for every requested year,
    [get_calendar_rules] depends on the years only as a set: two lists
    with the same years, in any order and with any repetition, resolve
    to the same rule set. *)
Theorem get_calendar_rules_years_set `{HolidayProvider} `{DateCodec}
    (custom_rules : gmap string override_record) (calendar_id : string)
    (years years' : list Z) :
  (forall y, y ∈ years <-> y ∈ years') ->
  (forall y, y ∈ years ->
     is_Some (country_holidays (provider_key calendar_id).1
                (provider_key calendar_id).2 y)) ->
  get_calendar_rules custom_rules calendar_id years
  = get_calendar_rules custom_rules calendar_id years'.
Proof.
  intros Hsame Hall.
  assert (Hall' : forall y, y ∈ years' ->
            is_Some (country_holidays (provider_key calendar_id).1
                       (provider_key calendar_id).2 y)).
  { intros y Hy. apply Hall. by apply Hsame. }
  assert (Hloaded : forall ys,
            (forall y, y ∈ ys ->
               is_Some (country_holidays (provider_key calendar_id).1
                          (provider_key calendar_id).2 y)) ->
            (load_holidays (provider_key calendar_id) ys ∅).2 = true).
  { intros ys Hys. apply not_false_iff_true. intros Hfalse.
    apply load_holidays_snd in Hfalse as (y & Hy & Hnone).
    destruct (Hys y Hy) as [? ?]. congruence. }
  rewrite !get_calendar_rules_unfold, !Hloaded by done.
  rewrite !load_holidays_fst.
  replace (list_to_set (strftime <$> concat (answered (provider_key calendar_id) years))
             : gset string)
    with (list_to_set (strftime <$> concat (answered (provider_key calendar_id) years'))
             : gset string); [done |].
  apply set_eq. intros s. rewrite !elem_of_list_to_set, !list_elem_of_fmap.
  setoid_rewrite answered_complete; [| done..].
  split; intros (d & -> & y & dates & Hy & Hdates & Hd); exists d; (split; [done |]);
    exists y, dates; (split; [by apply Hsame | done]).
Qed.

Lemma get_calendar_rules_years_set_witness :
  @get_calendar_rules Sample.provider Iso.codec Sample.sample_rules "US-NY" [2024; 2025]
  = @get_calendar_rules Sample.provider Iso.codec Sample.sample_rules "US-NY"
      [2025; 2024; 2025].
Proof.
  apply @get_calendar_rules_years_set.
  - intros y. rewrite !elem_of_cons, !elem_of_nil. tauto.
  - intros y Hy. rewrite !elem_of_cons, elem_of_nil in Hy.
    destruct Hy as [-> | [-> | []]]; vm_compute; eauto.
Defined.

(** ** The endpoints *)

(** X20. [GET /api/calendar/<id>] answers 404 exactly when the id has
    no override record and the provider raises for the current year or
    the next one; in every other case it answers 200 with the rule set
    [get_calendar_rules] returns for these two years. *)
Theorem get_calendar_not_found `{HolidayProvider} `{DateCodec}
    (custom_rules : gmap string override_record) (current_year : Z)
    (calendar_id : string) :
  (get_calendar custom_rules current_year calendar_id
     = Respond 404 (ErrorBody (Failed UnknownCalendar))
   <-> provider_raises calendar_id [current_year; current_year + 1]
       /\ custom_rules !! calendar_id = None) /\
  (~ (provider_raises calendar_id [current_year; current_year + 1]
      /\ custom_rules !! calendar_id = None) ->
   exists rules,
     get_calendar_rules custom_rules calendar_id [current_year; current_year + 1]
       = Return rules
     /\ get_calendar custom_rules current_year calendar_id = Respond 200 (RulesBody rules)).
Proof.
  unfold get_calendar.
  destruct (get_calendar_rules custom_rules calendar_id [current_year; current_year + 1])
    as [rules | e] eqn:Hr.
  - split.
    + split; [done |]. intros Hcond.
      assert (Hraise : get_calendar_rules custom_rules calendar_id
                [current_year; current_year + 1] = Raise (ValueError UnknownCalendar)).
      { apply get_calendar_rules_raises. by split. }
      congruence.
    + intros _. by exists rules.
  - apply get_calendar_rules_raises in Hr as (-> & Hraises & Hnone).
    split; [done |]. intros Hnot. exfalso. by apply Hnot.
Qed.

Lemma get_calendar_not_found_witness :
  @get_calendar Sample.provider Iso.codec Sample.sample_rules 2024 "INVALID-CAL"
  = Respond 404 (ErrorBody (Failed UnknownCalendar)).
Proof.
  apply (proj2 (proj1 (@get_calendar_not_found Sample.provider Iso.codec
                         Sample.sample_rules 2024 "INVALID-CAL"))).
  split; [| reflexivity].
  exists 2024. split; [apply elem_of_cons; by left | reflexivity].
Defined.

Lemma resolve_all_raises `{HolidayProvider} `{DateCodec}
    (custom_rules : gmap string override_record) (years : list Z)
    (calendar_ids : list string) (e : exn) :
  resolve_all custom_rules years calendar_ids = Raise e
  <-> e = ValueError UnknownCalendar
      /\ exists cal_id, cal_id ∈ calendar_ids
           /\ get_calendar_rules custom_rules cal_id years
              = Raise (ValueError UnknownCalendar).
Proof.
  revert e. induction calendar_ids as [| cal_id ids IH]; intros e; simpl.
  - split; [done |]. intros (_ & c & Hc & _). by apply elem_of_nil in Hc.
  - destruct (get_calendar_rules custom_rules cal_id years) as [rules | e'] eqn:Hr.
    + destruct (resolve_all custom_rules years ids) as [rules_list | e''] eqn:Hall.
      * split; [done |]. intros (-> & c & Hc & Hfail).
        apply elem_of_cons in Hc as [-> | Hc]; [congruence |].
        discriminate (proj2 (IH (ValueError UnknownCalendar))
                        (conj eq_refl (ex_intro _ c (conj Hc Hfail)))).
      * destruct (proj1 (IH e'') eq_refl) as (-> & c & Hc & Hfail). split.
        -- intros [= <-]. split; [done |]. exists c.
           split; [apply elem_of_cons; by right | done].
        -- by intros (-> & _).
    + pose proof Hr as Hr'.
      apply get_calendar_rules_raises in Hr' as (-> & _ & _). split.
      * intros [= <-]. split; [done |]. exists cal_id.
        split; [apply elem_of_cons; by left | done].
      * by intros (-> & _).
Qed.

Lemma empty_body_false_ids (data : request) :
  is_Some (truthy_ids (req_calendar_ids data)) -> empty_body data = false.
Proof.
  intros [ids Hids]. unfold empty_body.
  destruct (req_calendar_ids data) as [l |]; [| done].
  by destruct (req_operation data), (req_start_date data), (req_calendar_rules data).
Qed.

Lemma empty_body_false_operation (data : request) :
  is_Some (truthy_str (req_operation data)) -> empty_body data = false.
Proof.
  intros [op Hop]. unfold empty_body. by destruct (req_operation data).
Qed.

(** X21. When [POST /api/calculate] receives a non-empty list of
    calendar ids, the [calendar_rules] entry of the body is not used:
    the answer is the same whatever that entry holds. *)
Theorem calculate_ids_override_rules `{HolidayProvider} `{DateCodec} (fuel : nat)
    (custom_rules : gmap string override_record) (current_year : Z)
    (data : request) (v : option calendar_rules) (other_keys : bool) :
  is_Some (truthy_ids (req_calendar_ids data)) ->
  calculate fuel custom_rules current_year data
  = calculate fuel custom_rules current_year (with_calendar_rules data v other_keys).
Proof.
  intros Hids. unfold calculate.
  rewrite !empty_body_false_ids by done. simpl.
  destruct Hids as [ids Hids]. rewrite Hids.
  destruct (truthy_str (req_operation data)); [| done].
  by destruct (truthy_str (req_start_date data)).
Qed.

Lemma calculate_ids_override_rules_witness :
  @calculate Sample.provider Iso.codec 10 Sample.sample_rules 2024 Sample.by_ids
  = @calculate Sample.provider Iso.codec 10 Sample.sample_rules 2024
      (with_calendar_rules Sample.by_ids (Some Sample.standard) true).
Proof. apply @calculate_ids_override_rules. by eexists. Defined.

(** X22. With an operation, a start date and a non-empty list of
    calendar ids, [POST /api/calculate] answers 400 "Invalid calendar
    ID" exactly when one of the ids does not resolve for the current
    year and the next. *)
Theorem calculate_invalid_calendar_id `{HolidayProvider} `{DateCodec} (fuel : nat)
    (custom_rules : gmap string override_record) (current_year : Z)
    (data : request) (operation start_date : string) (calendar_ids : list string) :
  truthy_str (req_operation data) = Some operation ->
  truthy_str (req_start_date data) = Some start_date ->
  truthy_ids (req_calendar_ids data) = Some calendar_ids ->
  calculate fuel custom_rules current_year data
    = Some (Respond 400 (ErrorBody (InvalidCalendarId UnknownCalendar)))
  <-> exists cal_id, cal_id ∈ calendar_ids
        /\ get_calendar_rules custom_rules cal_id [current_year; current_year + 1]
           = Raise (ValueError UnknownCalendar).
Proof.
  intros Hop Hsd Hids. unfold calculate.
  rewrite empty_body_false_operation by (rewrite Hop; eauto).
  rewrite Hop, Hsd, Hids.
  destruct (resolve_all custom_rules [current_year; current_year + 1] calendar_ids)
    as [rules_list | e] eqn:Hall.
  - split.
    + unfold respond_calculation.
      by destruct (perform_calculation _ _ _ _ _ _) as [[? | [? |]] |].
    + intros Hex.
      assert (Hraise : resolve_all custom_rules [current_year; current_year + 1]
                calendar_ids = Raise (ValueError UnknownCalendar)).
      { apply resolve_all_raises. by split. }
      congruence.
  - apply resolve_all_raises in Hall as (-> & Hex). by split.
Qed.

Lemma calculate_invalid_calendar_id_witness :
  @calculate Sample.provider Iso.codec 10 Sample.sample_rules 2024 Sample.by_ids
  = Some (Respond 400 (ErrorBody (InvalidCalendarId UnknownCalendar))).
Proof.
  apply (proj2 (@calculate_invalid_calendar_id Sample.provider Iso.codec 10
                  Sample.sample_rules 2024 Sample.by_ids "days_between" "2024-07-01"
                  ["US"%string; "NOWHERE"%string] eq_refl eq_refl eq_refl)).
  exists "NOWHERE"%string. split.
  - apply elem_of_cons. right. apply elem_of_cons. by left.
  - vm_compute. reflexivity.
Defined.





(** ** Witnesses for the range check and the count *)

Lemma perform_calculation_invalid_range_witness :
  @perform_calculation Iso.codec 0 "days_between" "2024-10-16" Sample.standard
    (Some "2024-10-14"%string) None
  = Some (Raise (ValueError InvalidRange)).
Proof.
  apply (proj2 (@perform_calculation_invalid_range Iso.codec 0 "2024-10-16" "2024-10-14"
                  Sample.standard None (Iso.date "2024-10-16") (Iso.date "2024-10-14")
                  eq_refl eq_refl ltac:(discriminate))).
  vm_compute. discriminate.
Defined.

Lemma perform_calculation_days_between_witness :
  @perform_calculation Iso.codec 5 "days_between" "2024-10-18" Sample.standard
    (Some "2024-10-21"%string) None
  = Some (Return (DaysBetween
      (business_days_in (Iso.date "2024-10-18") (Iso.date "2024-10-21")
         (list_to_set (get_list (weekend_days Sample.standard)))
         (@parse_dates Iso.codec (get_list (holidays Sample.standard)) ∅)
         (@parse_dates Iso.codec (get_list (makeup_days Sample.standard)) ∅))
      "2024-10-18" "2024-10-21")).
Proof.
  apply (@perform_calculation_days_between Iso.codec 5 "2024-10-18" "2024-10-21"
           Sample.standard None (Iso.date "2024-10-18") (Iso.date "2024-10-21")).
  - reflexivity.
  - reflexivity.
  - discriminate.
  - vm_compute. split; discriminate.
  - vm_compute. split; reflexivity.
  - vm_compute. lia.
Defined.
